(** * DVR and HA mixins of the Neutron L3 agent

    A shallow embedding of [neutron/agent/l3/dvr.py] and
    [neutron/agent/l3/ha.py]: the SNAT table-index function, the memoized
    FIP-namespace table, distributed floating-IP add/remove, SNAT
    redirection, ARP entry updates and the keepalived state-change handler.

    Python objects that are shared by reference (the [FipNamespace]
    instances) live in an object store and are named by handles; calls to
    the kernel and process primitives of [ip_lib] and of the metadata driver
    are recorded, in call order, in a trace.  Each primitive may raise; which
    call does is decided by an oracle that the development is parametric
    in. *)

From Stdlib Require Import ZArith Ascii String Lia.
From stdpp Require Import base option list gmap strings pretty.

Local Open Scope Z_scope.

(** ** Python string helpers *)

Module PyStr.

(** [s.split(sep)] for a one-character separator: never empty. *)
Fixpoint split_aux (sep : ascii) (cur : string) (s : string) : list string :=
  match s with
  | EmptyString => [String.rev cur]
  | String c rest =>
      if decide (c = sep) then String.rev cur :: split_aux sep EmptyString rest
      else split_aux sep (String c cur) rest
  end.

Definition split (sep : ascii) (s : string) : list string :=
  split_aux sep EmptyString s.

(** [s.split(sep)[0]] *)
Definition split_head (sep : ascii) (s : string) : string :=
  match split sep s with
  | x :: _ => x
  | [] => EmptyString
  end.

(** [s[n:]] *)
Fixpoint drop (n : nat) (s : string) : string :=
  match n, s with
  | O, _ => s
  | S n', String _ rest => drop n' rest
  | S _, EmptyString => EmptyString
  end.

(** [s[:n]] *)
Fixpoint take (n : nat) (s : string) : string :=
  match n, s with
  | S n', String c rest => String c (take n' rest)
  | _, _ => EmptyString
  end.

Definition code (c : ascii) : Z := Z.of_nat (nat_of_ascii c).

Definition bytes (s : string) : list Z := code <$> list_ascii_of_string s.

End PyStr.

(** ** [netaddr.IPNetwork]

    The library is not part of this repository.  The model reads the two
    textual forms the agent builds its CIDRs from: a dotted quad of decimal
    octets and colon-separated hexadecimal groups with at most one [::], each
    with an optional [/prefixlen].  As in the library, [value] is the integer
    of the address as written (host bits are kept), and a text outside these
    forms is rejected ([None] stands for [AddrFormatError]). *)

Module netaddr.

Record IPNetwork := mkIPNetwork {
  version : Z;
  value : Z;
  prefixlen : Z
}.

Definition digit (c : ascii) : option Z :=
  let n := PyStr.code c in
  if (48 <=? n) && (n <=? 57) then Some (n - 48) else None.

Definition hexdigit (c : ascii) : option Z :=
  let n := PyStr.code c in
  if (48 <=? n) && (n <=? 57) then Some (n - 48)
  else if (97 <=? n) && (n <=? 102) then Some (n - 87)
  else if (65 <=? n) && (n <=? 70) then Some (n - 55)
  else None.

Fixpoint number_aux (base : Z) (dig : ascii → option Z)
    (s : string) (acc : Z) : option Z :=
  match s with
  | EmptyString => Some acc
  | String c rest =>
      match dig c with
      | Some d => number_aux base dig rest (acc * base + d)
      | None => None
      end
  end.

(** A non-empty run of at most [maxlen] digits. *)
Definition number (base : Z) (dig : ascii → option Z) (maxlen : nat)
    (s : string) : option Z :=
  if bool_decide (1 ≤ String.length s ≤ maxlen)%nat
  then number_aux base dig s 0 else None.

Definition octet (s : string) : option Z :=
  match number 10 digit 3 s with
  | Some n => if n <=? 255 then Some n else None
  | None => None
  end.

Definition group (s : string) : option Z := number 16 hexdigit 4 s.

Fixpoint all_some {A} (l : list (option A)) : option (list A) :=
  match l with
  | [] => Some []
  | Some x :: l' => cons x <$> all_some l'
  | None :: _ => None
  end.

Definition join (radix : Z) (parts : list Z) : Z :=
  fold_left (λ acc p, acc * radix + p) parts 0.

Definition ipv4 (addr : string) : option Z :=
  match all_some (octet <$> PyStr.split "." addr) with
  | Some ([_; _; _; _] as os) => Some (join 256 os)
  | _ => None
  end.

(** Position of the first [::], as the text before and after it. *)
Fixpoint split_gap (cur : string) (s : string) : option (string * string) :=
  match s with
  | String ":" (String ":" rest) => Some (String.rev cur, rest)
  | String c rest => split_gap (String c cur) rest
  | EmptyString => None
  end.

Definition groups (s : string) : option (list Z) :=
  match s with
  | EmptyString => Some []
  | _ => all_some (group <$> PyStr.split ":" s)
  end.

Definition ipv6 (addr : string) : option Z :=
  match split_gap EmptyString addr with
  | None =>
      match groups addr with
      | Some gs => if bool_decide (length gs = 8%nat)
                   then Some (join 65536 gs) else None
      | None => None
      end
  | Some (l, r) =>
      match groups l, groups r with
      | Some gl, Some gr =>
          if bool_decide (length gl + length gr ≤ 7)%nat
          then Some (join 65536 gl * 65536 ^ Z.of_nat (8 - length gl)
                     + join 65536 gr)
          else None
      | _, _ => None
      end
  end.

Definition prefix (width : Z) (p : option string) : option Z :=
  match p with
  | None => Some width
  | Some s =>
      match number 10 digit 3 s with
      | Some n => if n <=? width then Some n else None
      | None => None
      end
  end.

Definition network (addr : string) (p : option string) : option IPNetwork :=
  match ipv4 addr with
  | Some v => mkIPNetwork 4 v <$> prefix 32 p
  | None =>
      match ipv6 addr with
      | Some v => mkIPNetwork 6 v <$> prefix 128 p
      | None => None
      end
  end.

(** [netaddr.IPNetwork(text)] *)
Definition parse (text : string) : option IPNetwork :=
  match PyStr.split "/" text with
  | [addr] => network addr None
  | [addr; p] => network addr (Some p)
  | _ => None
  end.

(** [net.network.value]: the address with the host bits cleared. *)
Definition base_value (net : IPNetwork) : Z :=
  let width := if version net =? 4 then 32 else 128 in
  Z.shiftl (Z.shiftr (value net) (width - prefixlen net))
           (width - prefixlen net).

End netaddr.

(** ** [binascii.crc32]

    The CRC-32 of zlib (reflected polynomial [0xEDB88320]).  Python 2 hands
    the checksum back as a signed 32-bit integer, which is why the caller
    masks it. *)

Module binascii.

Definition shift_bit (c : Z) : Z :=
  if Z.odd c then Z.lxor (Z.shiftr c 1) 0xEDB88320 else Z.shiftr c 1.

Definition update (crc byte : Z) : Z :=
  Nat.iter 8 shift_bit (Z.lxor crc byte).

Definition crc32_unsigned (s : string) : Z :=
  Z.lxor (fold_left update (PyStr.bytes s) 0xFFFFFFFF) 0xFFFFFFFF.

Definition crc32 (s : string) : Z :=
  let u := crc32_unsigned s in
  if u <? 2 ^ 31 then u else u - 2 ^ 32.

End binascii.

(** ** Module constants of [dvr.py] *)

Definition SNAT_INT_DEV_PREFIX : string := "sg-".
Definition SNAT_NS_PREFIX : string := "snat-".
(** xor-folding mask used for IPv6 rule index *)
Definition MASK_30 : Z := 0x3fffffff.

(** ** [_get_snat_idx]

    [None] is the [AddrFormatError] of [netaddr.IPNetwork(ip_cidr)]. *)

Definition snat_fold (crc : Z) : Z :=
  let snat_idx := Z.land crc 0xffffffff in
  let snat_idx := Z.lxor (Z.shiftr snat_idx 30) (Z.land snat_idx MASK_30) in
  if snat_idx <? 32768 then snat_idx + MASK_30 else snat_idx.

Definition _get_snat_idx (ip_cidr : string) : option Z :=
  match netaddr.parse ip_cidr with
  | None => None
  | Some net =>
      if netaddr.version net =? 6
      then Some (snat_fold (binascii.crc32 ip_cidr))
      else Some (netaddr.value net)
  end.

(** ** Exceptions, outcomes and the state-and-exception monad

    A Python call either returns a value or raises; the mutations made
    before a [raise] stay in place, so the state is threaded through
    both. *)

Inductive Exception :=
| KeyError
| AttributeError
| TypeError
| AddrFormatError
| ExhaustedError
| PrimitiveError.

Inductive Outcome (A : Type) :=
| Returns (a : A)
| Raises (e : Exception).
Arguments Returns {A} a.
Arguments Raises {A} e.

Definition Py (S A : Type) : Type := S → Outcome A * S.

#[export] Instance Py_ret {S} : MRet (Py S) := λ A a s, (Returns a, s).

#[export] Instance Py_bind {S} : MBind (Py S) := λ A B f m s,
  match m s with
  | (Returns a, s') => f a s'
  | (Raises e, s') => (Raises e, s')
  end.

Definition raise {S A} (e : Exception) : Py S A := λ s, (Raises e, s).

Definition get {S} : Py S S := λ s, (Returns s, s).

Definition modify {S} (f : S → S) : Py S unit := λ s, (Returns tt, f s).

(** [try: body except <catches>: handler] *)
Definition try_except {S A} (body : Py S A) (catches : Exception → bool)
    (handler : Py S A) : Py S A := λ s,
  match body s with
  | (Raises e, s') => if catches e then handler s' else (Raises e, s')
  | r => r
  end.

(** [except Exception] *)
Definition any_Exception (e : Exception) : bool := true.

(** [except AttributeError] *)
Definition only_AttributeError (e : Exception) : bool :=
  match e with AttributeError => true | _ => false end.

(** [d[k]] on a dict *)
Definition getitem {S K V} `{Countable K} (d : gmap K V) (k : K) : Py S V :=
  match d !! k with
  | Some v => mret v
  | None => raise KeyError
  end.

(** ** Calls that leave the mixins

    The primitives of [ip_lib], the metadata driver and the logger, with the
    arguments the mixins pass (the [root_helper] and [conf] handles, the same
    in every call, are left out), and the two [FipNamespace] calls that
    drive the namespace's lifecycle. *)

Inductive LogLevel := debug | info | error | exception.

Inductive Effect :=
| IpRule_add (ns ip : string) (table priority : Z)
| IpRule_delete (ns ip : string) (table priority : Z)
| route_add_route (ns dev cidr via : string)
| route_delete_route (ns dev cidr via : string)
| route_add_gateway (ns dev gateway : string) (table : Z)
| route_delete_gateway (ns dev : string) (gateway : option string) (table : Z)
| netns_execute (ns : string) (cmd : list string)
| del_veth (ns name : string)
| send_garp_for_proxyarp (ns iface ip : string)
| neigh_add (ns dev : string) (version : Z) (ip mac : string)
| neigh_delete (ns dev : string) (version : Z) (ip mac : string)
| spawn_monitored_metadata_proxy (ns : string) (port : Z) (router_id : string)
| destroy_monitored_metadata_proxy (router_id ns : string)
| fip_ns_unsubscribe (handle : nat) (router_id : string) (is_last : bool)
| fip_ns_destroy (handle : nat)
| LOG (level : LogLevel) (msg : string) (args : list string).

#[export] Instance LogLevel_eq_dec : EqDecision LogLevel.
Proof. solve_decision. Defined.
#[export] Instance Exception_eq_dec : EqDecision Exception.
Proof. solve_decision. Defined.
#[export] Instance Effect_eq_dec : EqDecision Effect.
Proof. solve_decision. Defined.

(** ** Data model *)

(** The two ends of a point-to-point lease, as [str(end.ip)]. *)
Record LinkLocalAddressPair := mkPair {
  rtr_2_fip_ip : string;
  fip_2_rtr_ip : string
}.

(** Modelled from the spec: the local subnet pool ([LinkLocalAllocator] is
    not among the sources).  One lease per key; [allocate] on a leased key
    returns the existing lease; [release] on an unleased key does nothing. *)
Record LinkLocalAllocator := mkAllocator {
  allocations : gmap string LinkLocalAddressPair;
  pool : list LinkLocalAddressPair
}.

Definition allocate (key : string) (a : LinkLocalAllocator)
    : option (LinkLocalAddressPair * LinkLocalAllocator) :=
  match allocations a !! key with
  | Some lease => Some (lease, a)
  | None =>
      match pool a with
      | lease :: rest => Some (lease, mkAllocator (<[key:=lease]> (allocations a)) rest)
      | [] => None
      end
  end.

Definition release (key : string) (a : LinkLocalAllocator) : LinkLocalAllocator :=
  match allocations a !! key with
  | Some lease => mkAllocator (delete key (allocations a)) (lease :: pool a)
  | None => a
  end.

(** Modelled from the spec: the [FipNamespace] object of [dvr_fip_ns] (not
    among the sources): its external network, its subscriber set, the rule
    priorities free for allocation, the agent gateway port (its [id], when
    set) and the subnet pool. *)
Record FipNamespace := mkFipNamespace {
  _ext_net_id : string;
  _subscribers : gset string;
  _rule_priorities : list Z;
  agent_gateway_port : option string;
  local_subnets : LinkLocalAllocator
}.

Record FixedIp := mkFixedIp {
  subnet_id : string;
  ip_address : string
}.

(** A port dict; [ip_cidr] is absent until the subnet info is set. *)
Record Port := mkPort {
  id : string;
  fixed_ips : list FixedIp;
  ip_cidr : option string
}.

(** The router dict, as far as the mixins read it. *)
Record Router := mkRouter {
  distributed : bool;
  _interfaces : list Port
}.

Record RouterInfo := mkRouterInfo {
  router_id : string;
  ns_name : string;
  router : Router;
  floating_ips_dict : gmap string Z;
  dist_fip_count : Z;
  rtr_fip_subnet : option LinkLocalAddressPair;
  fip_ns : option nat
}.

Record Agent := mkAgent {
  _fip_namespaces : gmap string nat;
  router_info : gmap string RouterInfo;
  fullsync : bool;
  agent_local_subnets : option LinkLocalAllocator
}.

(** The agent, the store of [FipNamespace] objects (a handle is an index)
    and the calls made so far, oldest first. *)
Record World := mkWorld {
  self : Agent;
  objects : list FipNamespace;
  trace : list Effect
}.

#[export] Instance Pair_eq_dec : EqDecision LinkLocalAddressPair.
Proof. solve_decision. Defined.
#[export] Instance Allocator_eq_dec : EqDecision LinkLocalAllocator.
Proof. solve_decision. Defined.
#[export] Instance FipNamespace_eq_dec : EqDecision FipNamespace.
Proof. solve_decision. Defined.
#[export] Instance FixedIp_eq_dec : EqDecision FixedIp.
Proof. solve_decision. Defined.
#[export] Instance Port_eq_dec : EqDecision Port.
Proof. solve_decision. Defined.
#[export] Instance Router_eq_dec : EqDecision Router.
Proof. solve_decision. Defined.
#[export] Instance RouterInfo_eq_dec : EqDecision RouterInfo.
Proof. solve_decision. Defined.
#[export] Instance Agent_eq_dec : EqDecision Agent.
Proof. solve_decision. Defined.
#[export] Instance World_eq_dec : EqDecision World.
Proof. solve_decision. Defined.

(** ** What the mixins take from the rest of the agent

    Constants and naming functions defined in modules that are not among
    the sources, the state a fresh [FipNamespace] starts with, and the
    oracle: [raises past call] tells whether primitive [call], made after
    the calls [past], raises. *)

Class Environment := {
  FIP_NS_PREFIX : string;
  FIP_RT_TBL : Z;
  get_int_device_name : string → string;
  get_rtr_ext_device_name : string → string;
  get_ext_device_name : string → string;
  get_internal_device_name : string → string;
  new_rule_priorities : list Z;
  new_local_subnets : LinkLocalAllocator;
  metadata_port : Z;
  raises : list Effect → Effect → bool
}.

(** [str(x)] of the values an external network id arrives as. *)
Inductive PyValue :=
| PyString (s : string)
| PyInt (n : Z).

Definition str (x : PyValue) : string :=
  match x with
  | PyString s => s
  | PyInt n => pretty n
  end.

Definition set_self (f : Agent → Agent) (w : World) : World :=
  mkWorld (f (self w)) (objects w) (trace w).

Definition set_objects (f : list FipNamespace → list FipNamespace) (w : World) : World :=
  mkWorld (self w) (f (objects w)) (trace w).

Definition record (e : Effect) (w : World) : World :=
  mkWorld (self w) (objects w) (trace w ++ [e]).

Definition set_fip_namespaces (f : gmap string nat → gmap string nat) (a : Agent) : Agent :=
  mkAgent (f (_fip_namespaces a)) (router_info a) (fullsync a) (agent_local_subnets a).

Definition set_fullsync (b : bool) (a : Agent) : Agent :=
  mkAgent (_fip_namespaces a) (router_info a) b (agent_local_subnets a).

Definition set_agent_local_subnets (l : LinkLocalAllocator) (a : Agent) : Agent :=
  mkAgent (_fip_namespaces a) (router_info a) (fullsync a) (Some l).

Definition set_floating_ips_dict (f : gmap string Z → gmap string Z) (ri : RouterInfo) : RouterInfo :=
  mkRouterInfo (router_id ri) (ns_name ri) (router ri) (f (floating_ips_dict ri))
    (dist_fip_count ri) (rtr_fip_subnet ri) (fip_ns ri).

Definition set_dist_fip_count (n : Z) (ri : RouterInfo) : RouterInfo :=
  mkRouterInfo (router_id ri) (ns_name ri) (router ri) (floating_ips_dict ri)
    n (rtr_fip_subnet ri) (fip_ns ri).

Definition set_rtr_fip_subnet (l : option LinkLocalAddressPair) (ri : RouterInfo) : RouterInfo :=
  mkRouterInfo (router_id ri) (ns_name ri) (router ri) (floating_ips_dict ri)
    (dist_fip_count ri) l (fip_ns ri).

(** The events a call added to the trace. *)
Definition emitted (before after : World) : list Effect :=
  drop (length (trace before)) (trace after).

Section Mixins.
Context `{Environment}.

(** A primitive is recorded when it is invoked, whether or not it then
    raises. *)
Definition call (e : Effect) : Py World unit := λ w,
  if raises (trace w) e then (Raises PrimitiveError, record e w)
  else (Returns tt, record e w).

(** The logger does not raise. *)
Definition log (level : LogLevel) (msg : string) (args : list string) : Py World unit :=
  modify (record (LOG level msg args)).

(** *** [FipNamespace], by handle

    Modelled from the spec: [dvr_fip_ns.FipNamespace] is not among the
    sources.  Attribute access through [None] raises [AttributeError]; a
    handle outside the store is treated the same way. *)

Definition deref (h : option nat) : Py World (nat * FipNamespace) := λ w,
  match h with
  | Some n =>
      match objects w !! n with
      | Some o => (Returns (n, o), w)
      | None => (Raises AttributeError, w)
      end
  | None => (Raises AttributeError, w)
  end.

Definition store (n : nat) (o : FipNamespace) : Py World unit :=
  modify (set_objects (<[n:=o]>)).

(** Modelled from the spec: the constructor; the object starts with no
    subscriber, all priorities free and no gateway port. *)
Definition FipNamespace_new (ext_net_id : string) : Py World nat := λ w,
  (Returns (length (objects w)),
   set_objects (λ os, os ++ [mkFipNamespace ext_net_id ∅ new_rule_priorities
                               None new_local_subnets]) w).

(** Modelled from the spec: the namespace name is the prefix followed by
    the external network id ([_destroy_fip_namespace] strips the prefix). *)
Definition get_name (h : option nat) : Py World string :=
  '(_, o) ← deref h; mret (FIP_NS_PREFIX +:+ _ext_net_id o).

(** Modelled from the spec: [allocate() -> priority], failing when the
    range is saturated. *)
Definition allocate_rule_priority (h : option nat) : Py World Z :=
  '(n, o) ← deref h;
  match _rule_priorities o with
  | [] => raise ExhaustedError
  | p :: rest =>
      store n (mkFipNamespace (_ext_net_id o) (_subscribers o) rest
                 (agent_gateway_port o) (local_subnets o));;
      mret p
  end.

(** Modelled from the spec: [deallocate(priority)] makes it free again. *)
Definition deallocate_rule_priority (h : option nat) (rule_pr : Z) : Py World unit :=
  '(n, o) ← deref h;
  store n (mkFipNamespace (_ext_net_id o) (_subscribers o)
             (rule_pr :: _rule_priorities o)
             (agent_gateway_port o) (local_subnets o)).

(** Modelled from the spec: [unsubscribe(router_id) -> is_last] removes
    the router from the subscriber set and tells whether the set is now
    empty. *)
Definition unsubscribe (h : option nat) (rid : string) : Py World bool :=
  '(n, o) ← deref h;
  let subs := _subscribers o ∖ {[rid]} in
  let is_last := bool_decide (subs = ∅) in
  store n (mkFipNamespace (_ext_net_id o) subs (_rule_priorities o)
             (agent_gateway_port o) (local_subnets o));;
  modify (record (fip_ns_unsubscribe n rid is_last));;
  mret is_last.

(** [fip_ns.destroy()]: the teardown is a primitive of its own. *)
Definition destroy (h : option nat) : Py World unit :=
  '(n, _) ← deref h; call (fip_ns_destroy n).

(** [fip_ns.local_subnets.release(router_id)] *)
Definition local_subnets_release (h : option nat) (rid : string) : Py World unit :=
  '(n, o) ← deref h;
  store n (mkFipNamespace (_ext_net_id o) (_subscribers o) (_rule_priorities o)
             (agent_gateway_port o) (release rid (local_subnets o))).

(** [fip_ns.get_ext_device_name(fip_ns.agent_gateway_port['id'])];
    subscripting [None] raises [TypeError]. *)
Definition ext_device_name (h : option nat) : Py World string :=
  '(_, o) ← deref h;
  match agent_gateway_port o with
  | Some port_id => mret (get_ext_device_name port_id)
  | None => raise TypeError
  end.

(** *** [dvr.AgentMixin] *)

Definition get_fip_ns (ext_net_id : PyValue) : Py World nat :=
  let ext_net_id := str ext_net_id in
  w ← get;
  (if bool_decide (ext_net_id ∉ dom (_fip_namespaces (self w))) then
     fip_ns ← FipNamespace_new ext_net_id;
     modify (set_self (set_fip_namespaces (<[ext_net_id:=fip_ns]>)))
   else mret tt);;
  w ← get;
  getitem (_fip_namespaces (self w)) ext_net_id.

Definition _destroy_fip_namespace (ns : string) : Py World unit :=
  let ex_net_id := PyStr.drop (String.length FIP_NS_PREFIX) ns in
  fip_ns ← get_fip_ns (PyString ex_net_id);
  w ← get;
  (if bool_decide (ex_net_id ∈ dom (_fip_namespaces (self w)))
   then modify (set_self (set_fip_namespaces (delete ex_net_id)))
   else raise KeyError);;
  destroy (Some fip_ns).

(** Return internal router port based on subnet_id. *)
Definition get_internal_port (ri : RouterInfo) (subnet : string) : option Port :=
  List.find (λ port, existsb (λ f, bool_decide (subnet_id f = subnet)) (fixed_ips port))
    (_interfaces (router ri)).

(** *** Distributed floating IPs

    [floating_ip_added_dist] and [floating_ip_removed_dist] mutate the
    [RouterInfo] they are handed as well as the agent: their state is the
    pair of both. *)

Definition in_world {A} (m : Py World A) : Py (World * RouterInfo) A := λ s,
  let '(o, w) := m s.1 in (o, (w, s.2)).

Definition the_ri : Py (World * RouterInfo) RouterInfo := λ s, (Returns s.2, s).

Definition set_ri (f : RouterInfo → RouterInfo) : Py (World * RouterInfo) unit :=
  modify (λ s, (s.1, f s.2)).

(** [ri.rtr_fip_subnet.get_pair()] *)
Definition get_pair : Py (World * RouterInfo) LinkLocalAddressPair :=
  ri ← the_ri;
  match rtr_fip_subnet ri with
  | Some lease => mret lease
  | None => raise AttributeError
  end.

(** [self.local_subnets.allocate(router_id)], on the agent's own
    attribute. *)
Definition agent_local_subnets_allocate (rid : string)
    : Py World LinkLocalAddressPair :=
  w ← get;
  match agent_local_subnets (self w) with
  | None => raise AttributeError
  | Some a =>
      match allocate rid a with
      | Some (lease, a') =>
          modify (set_self (set_agent_local_subnets a'));; mret lease
      | None => raise ExhaustedError
      end
  end.

Record Fip := mkFip {
  floating_ip_address : string;
  fixed_ip_address : string
}.

(** Add floating IP to FIP namespace. *)
Definition floating_ip_added_dist (fip : Fip) (fip_cidr : string)
    : Py (World * RouterInfo) unit :=
  let floating_ip := floating_ip_address fip in
  let fixed_ip := fixed_ip_address fip in
  ri ← the_ri;
  rule_pr ← in_world (allocate_rule_priority (fip_ns ri));
  set_ri (set_floating_ips_dict (<[floating_ip:=rule_pr]>));;
  ri ← the_ri;
  _ ← in_world (deref (fip_ns ri));
  let fip_2_rtr_name := get_int_device_name (router_id ri) in
  in_world (call (IpRule_add (ns_name ri) fixed_ip FIP_RT_TBL rule_pr));;
  fip_ns_name ← in_world (get_name (fip_ns ri));
  lease ← get_pair;
  in_world (call (route_add_route fip_ns_name fip_2_rtr_name fip_cidr
                    (rtr_2_fip_ip lease)));;
  interface_name ← in_world (ext_device_name (fip_ns ri));
  in_world (call (send_garp_for_proxyarp fip_ns_name interface_name floating_ip));;
  (* update internal structures *)
  ri ← the_ri;
  set_ri (set_dist_fip_count (dist_fip_count ri + 1)).

(** Remove floating IP from FIP namespace. *)
Definition floating_ip_removed_dist (fip_cidr : string)
    : Py (World * RouterInfo) unit :=
  let floating_ip := PyStr.split_head "/" fip_cidr in
  ri ← the_ri;
  _ ← in_world (deref (fip_ns ri));
  let rtr_2_fip_name := get_rtr_ext_device_name (router_id ri) in
  let fip_2_rtr_name := get_int_device_name (router_id ri) in
  (if rtr_fip_subnet ri is None then
     lease ← in_world (agent_local_subnets_allocate (router_id ri));
     set_ri (set_rtr_fip_subnet (Some lease))
   else mret tt);;
  lease ← get_pair;
  fip_ns_name ← in_world (get_name (fip_ns ri));
  (match floating_ips_dict ri !! floating_ip with
   | Some rule_pr =>
       in_world (call (IpRule_delete (ns_name ri) floating_ip FIP_RT_TBL rule_pr));;
       in_world (deallocate_rule_priority (fip_ns ri) rule_pr)
   | None => mret tt
   end);;
  in_world (call (route_delete_route fip_ns_name fip_2_rtr_name fip_cidr
                    (rtr_2_fip_ip lease)));;
  (* check if this is the last FIP for this router *)
  ri ← the_ri;
  set_ri (set_dist_fip_count (dist_fip_count ri - 1));;
  ri ← the_ri;
  if bool_decide (dist_fip_count ri = 0) then
    (* remove default route entry *)
    in_world (call (route_delete_gateway (ns_name ri) rtr_2_fip_name
                      (Some (fip_2_rtr_ip lease)) FIP_RT_TBL));;
    in_world (local_subnets_release (fip_ns ri) (router_id ri));;
    set_ri (set_rtr_fip_subnet None);;
    in_world (call (del_veth fip_ns_name fip_2_rtr_name));;
    is_last ← in_world (unsubscribe (fip_ns ri) (router_id ri));
    (* clean up fip-namespace if this is the last FIP *)
    if is_last : bool then in_world (_destroy_fip_namespace fip_ns_name)
    else mret tt
  else mret tt.

(** *** SNAT redirection *)

Definition snat_idx_of (cidr : string) : Py World Z :=
  match _get_snat_idx cidr with
  | Some idx => mret idx
  | None => raise AddrFormatError
  end.

(** [sn_port['ip_cidr']] *)
Definition port_ip_cidr (port : Port) : Py World string :=
  match ip_cidr port with
  | Some c => mret c
  | None => raise KeyError
  end.

(** Adds rules and routes for SNAT redirection. *)
Definition _snat_redirect_add (ri : RouterInfo) (gateway : string)
    (sn_port : Port) (sn_int : string) : Py World unit :=
  try_except
    (ip_cidr ← port_ip_cidr sn_port;
     snat_idx ← snat_idx_of ip_cidr;
     call (route_add_gateway (ns_name ri) sn_int gateway snat_idx);;
     call (IpRule_add (ns_name ri) ip_cidr snat_idx snat_idx);;
     call (netns_execute (ns_name ri)
             ["sysctl"; "-w";
              "net.ipv4.conf." +:+ sn_int +:+ ".send_redirects=0"]))
    any_Exception
    (log exception "DVR: error adding redirection logic" []).

(** Removes rules and routes for SNAT redirection. *)
Definition _snat_redirect_remove (ri : RouterInfo) (sn_port : Port)
    (sn_int : string) : Py World unit :=
  try_except
    (ip_cidr ← port_ip_cidr sn_port;
     snat_idx ← snat_idx_of ip_cidr;
     call (route_delete_gateway (ns_name ri) sn_int None snat_idx);;
     call (IpRule_delete (ns_name ri) ip_cidr snat_idx snat_idx))
    any_Exception
    (log exception "DVR: removed snat failed" []).

(** *** ARP entries *)

(** Add or delete arp entry into router namespace for the subnet. *)
Definition _update_arp_entry (ri : RouterInfo) (ip mac subnet operation : string)
    : Py World unit :=
  let port := get_internal_port ri subnet in
  (* update arp entry only if the subnet is attached to the router *)
  match port with
  | Some port =>
      let ip_cidr := ip +:+ "/32" in
      try_except
        (net ← (match netaddr.parse ip_cidr with
                | Some net => mret net
                | None => raise AddrFormatError
                end);
         let interface_name := get_internal_device_name (id port) in
         if bool_decide (operation = "add") then
           call (neigh_add (ns_name ri) interface_name (netaddr.version net) ip mac)
         else if bool_decide (operation = "delete") then
           call (neigh_delete (ns_name ri) interface_name (netaddr.version net) ip mac)
         else mret tt)
        any_Exception
        (log exception "DVR: Failed updating arp entry" [];;
         modify (set_self (set_fullsync true)))
  | None => mret tt
  end.

Record ArpTable := mkArpTable {
  arp_ip_address : string;
  arp_mac_address : string;
  arp_subnet_id : string
}.

Record Payload := mkPayload {
  arp_table : ArpTable;
  payload_router_id : string
}.

(** Add arp entry into router namespace.  Called from RPC. *)
Definition add_arp_entry (payload : Payload) : Py World unit :=
  let arp_table := arp_table payload in
  let router_id := payload_router_id payload in
  let ip := arp_ip_address arp_table in
  let mac := arp_mac_address arp_table in
  let subnet_id := arp_subnet_id arp_table in
  w ← get;
  match router_info (self w) !! router_id with
  | Some ri => _update_arp_entry ri ip mac subnet_id "add"
  | None => mret tt
  end.

(** Delete arp entry from router namespace.  Called from RPC. *)
Definition del_arp_entry (payload : Payload) : Py World unit :=
  let arp_table := arp_table payload in
  let router_id := payload_router_id payload in
  let ip := arp_ip_address arp_table in
  let mac := arp_mac_address arp_table in
  let subnet_id := arp_subnet_id arp_table in
  w ← get;
  match router_info (self w) !! router_id with
  | Some ri => _update_arp_entry ri ip mac subnet_id "delete"
  | None => mret tt
  end.

(** *** [ha.AgentMixin] *)

Definition _update_metadata_proxy (rid state : string) : Py World unit :=
  found ← try_except
    (w ← get; ri ← getitem (router_info (self w)) rid; mret (Some ri))
    only_AttributeError
    (log info ("Router %s is not managed by this agent. It was " +:+
               "possibly deleted concurrently.") [rid];;
     mret None);
  match found with
  | None => mret tt
  | Some ri =>
      if bool_decide (state = "master") then
        log debug "Spawning metadata proxy for router %s" [rid];;
        call (spawn_monitored_metadata_proxy (ns_name ri) metadata_port
                (router_id ri))
      else
        log debug "Closing metadata proxy for router %s" [rid];;
        call (destroy_monitored_metadata_proxy (router_id ri) (ns_name ri))
  end.

Definition enqueue_state_change (rid state : string) : Py World unit :=
  log info "Router %(router_id)s transitioned to %(state)s" [rid; state];;
  _update_metadata_proxy rid state.

End Mixins.

(** ** An example deployment

    The constants of [dvr_fip_ns] and a fault-free oracle, for running the
    model on concrete inputs. *)

Definition example_pool : list LinkLocalAddressPair :=
  [mkPair "169.254.30.0" "169.254.30.1"; mkPair "169.254.30.2" "169.254.30.3"].

Definition quiet : Environment := {|
  FIP_NS_PREFIX := "fip-";
  FIP_RT_TBL := 16;
  get_int_device_name := λ rid, PyStr.take 14 ("fpr-" +:+ rid);
  get_rtr_ext_device_name := λ rid, PyStr.take 14 ("rfp-" +:+ rid);
  get_ext_device_name := λ pid, PyStr.take 14 ("fg-" +:+ pid);
  get_internal_device_name := λ pid, PyStr.take 14 ("qr-" +:+ pid);
  new_rule_priorities := [32768; 32769; 32770; 32771];
  new_local_subnets := mkAllocator ∅ example_pool;
  metadata_port := 9697;
  raises := λ _ _, false
|}.

(** The same deployment with every primitive failing. *)
Definition faulty : Environment := {|
  FIP_NS_PREFIX := "fip-";
  FIP_RT_TBL := 16;
  get_int_device_name := λ rid, PyStr.take 14 ("fpr-" +:+ rid);
  get_rtr_ext_device_name := λ rid, PyStr.take 14 ("rfp-" +:+ rid);
  get_ext_device_name := λ pid, PyStr.take 14 ("fg-" +:+ pid);
  get_internal_device_name := λ pid, PyStr.take 14 ("qr-" +:+ pid);
  new_rule_priorities := [32768; 32769; 32770; 32771];
  new_local_subnets := mkAllocator ∅ example_pool;
  metadata_port := 9697;
  raises := λ _ _, true
|}.

Definition empty_agent : Agent := mkAgent ∅ ∅ false None.

Definition empty_world : World := mkWorld empty_agent [] [].

(** ** Vocabulary of the statements *)

(** The memo table of [get_fip_ns]. *)
Definition cache (w : World) : gmap string nat := _fip_namespaces (self w).

(** The neighbour-entry primitives. *)
Definition is_neigh (e : Effect) : bool :=
  match e with
  | neigh_add _ _ _ _ _ | neigh_delete _ _ _ _ _ => true
  | _ => false
  end.

Definition is_netns_execute (e : Effect) : bool :=
  match e with
  | netns_execute _ _ => true
  | _ => false
  end.

Definition example_payload : Payload :=
  mkPayload (mkArpTable "10.0.0.7" "fa:16:3e:00:00:07" "subnet-1") "r1".

Definition example_router : RouterInfo :=
  mkRouterInfo "r1" "qrouter-r1" (mkRouter true []) ∅ 0 None None.

Definition example_sn_port : Port :=
  mkPort "p1" [mkFixedIp "subnet-1" "10.0.0.1"] (Some "10.0.0.1/24").

(** The same router with that port as its interface on [subnet-1]. *)
Definition arp_router : RouterInfo :=
  mkRouterInfo "r1" "qrouter-r1" (mkRouter true [example_sn_port]) ∅ 0 None None.

(** The router's count agrees with its floating-IP table. *)
Definition consistent (ri : RouterInfo) : Prop :=
  dist_fip_count ri = Z.of_nat (size (floating_ips_dict ri)).

(** A call on one router. *)
Inductive FipCall :=
| AddFip (fip : Fip) (fip_cidr : string)
| RemoveFip (fip_cidr : string).

Definition fip_call `{Environment} (c : FipCall) : Py (World * RouterInfo) unit :=
  match c with
  | AddFip fip fip_cidr => floating_ip_added_dist fip fip_cidr
  | RemoveFip fip_cidr => floating_ip_removed_dist fip_cidr
  end.

(** The states after each call of a sequence that returned; a call that
    raises ends the sequence, the exception going to the caller. *)
Fixpoint states_after `{Environment} (calls : list FipCall) (s : World * RouterInfo)
    : list (World * RouterInfo) :=
  match calls with
  | [] => []
  | c :: rest =>
      match fip_call c s with
      | (Returns _, s') => s' :: states_after rest s'
      | (Raises _, _) => []
      end
  end.

Definition added_address (c : FipCall) : option string :=
  match c with
  | AddFip fip _ => Some (floating_ip_address fip)
  | RemoveFip _ => None
  end.

(** One external network with its FIP namespace in the memo table, and a
    router subscribed to it that holds a lease and no floating IP yet. *)
Definition example_lease : LinkLocalAddressPair := mkPair "169.254.30.0" "169.254.30.1".

Definition example_fip_ns : FipNamespace :=
  mkFipNamespace "ext-net" {["r1"]} [32768; 32769; 32770] (Some "gw-port")
    (mkAllocator {["r1" := example_lease]} [mkPair "169.254.30.2" "169.254.30.3"]).

Definition fip_world : World :=
  mkWorld (mkAgent {["ext-net" := 0%nat]} ∅ false None) [example_fip_ns] [].

Definition fip_router : RouterInfo :=
  mkRouterInfo "r1" "qrouter-r1" (mkRouter true []) ∅ 0 (Some example_lease) (Some 0%nat).

Definition example_fip : Fip := mkFip "203.0.113.10" "10.0.0.5".

(** The same, after [203.0.113.10] was added to the router. *)
Definition one_fip_state : World * RouterInfo :=
  (@floating_ip_added_dist quiet example_fip "203.0.113.10/32" (fip_world, fip_router)).2.

(** The namespace object in [one_fip_state]: one priority is taken. *)
Definition one_fip_ns : FipNamespace :=
  mkFipNamespace "ext-net" {["r1"]} [32769; 32770] (Some "gw-port")
    (mkAllocator {["r1" := example_lease]} [mkPair "169.254.30.2" "169.254.30.3"]).

(** ** The rest of the two mixins

    The functions of [dvr.py] and [ha.py] next to the ones above: the SNAT
    device and namespace names, the teardown of the SNAT namespace, the
    matching of SNAT ports, the ARP seeding of a subnet and the notification
    handler in front of [enqueue_state_change]. *)

(** [s.startswith(p)] *)
Fixpoint startswith (p s : string) : bool :=
  match p, s with
  | EmptyString, _ => true
  | String a p', String b s' => bool_decide (a = b) && startswith p' s'
  | String _ _, EmptyString => false
  end.

(** [get_snat_int_device_name]; [DEV_NAME_LEN] is the interface driver's
    constant. *)
Definition get_snat_int_device_name (DEV_NAME_LEN : nat) (port_id : string) : string :=
  PyStr.take DEV_NAME_LEN (SNAT_INT_DEV_PREFIX +:+ port_id).

Definition get_snat_ns_name (rid : string) : string := SNAT_NS_PREFIX +:+ rid.

(** [for x in l: body(x)] *)
Fixpoint for_each {S A} (l : list A) (body : A → Py S unit) : Py S unit :=
  match l with
  | [] => mret tt
  | x :: rest => body x;; for_each rest body
  end.

(** The calls [_destroy_snat_namespace] makes: the driver's [unplug], the
    agent's [_delete_namespace] and its debug lines. *)
Inductive NamespaceCall :=
| driver_unplug (device ns prefix : string)
| delete_namespace (ns : string)
| LOG_debug (msg : string) (args : list string).

#[export] Instance NamespaceCall_eq_dec : EqDecision NamespaceCall.
Proof. solve_decision. Defined.

(** A call is recorded, then raises when [fails] says so. *)
Definition ns_call (fails : NamespaceCall → bool) (c : NamespaceCall)
    : Py (list NamespaceCall) unit := λ t,
  (if fails c then Raises PrimitiveError else Returns tt, t ++ [c]).

Definition ns_log (msg : string) (args : list string) : Py (list NamespaceCall) unit :=
  modify (λ t, t ++ [LOG_debug msg args]).

(** [devices] are the names [ns_ip.get_devices(exclude_loopback=True)]
    lists; [router_delete_namespaces] is the configuration flag. *)
Definition _destroy_snat_namespace (fails : NamespaceCall → bool)
    (router_delete_namespaces : bool) (devices : list string) (ns : string)
    : Py (list NamespaceCall) unit :=
  (* delete internal interfaces *)
  for_each devices (λ d,
    if startswith SNAT_INT_DEV_PREFIX d then
      ns_log "Unplugging DVR device %s" [d];;
      ns_call fails (driver_unplug d ns SNAT_INT_DEV_PREFIX)
    else mret tt);;
  ns_log "DVR: destroy snat ns: %s" [ns];;
  if router_delete_namespaces then ns_call fails (delete_namespace ns)
  else mret tt.

(** How [_map_internal_interfaces] ends: with a port, with [None], or with
    the [IndexError] of a [fixed_ips][0] on an empty list. *)
Inductive MapOutcome :=
| map_returns (port : option Port)
| map_IndexError.

(** [[p for p in snat_ports if p['fixed_ips'][0]['subnet_id'] == subnet]];
    [None] is the [IndexError]. *)
Fixpoint match_ports (subnet : string) (snat_ports : list Port) : option (list Port) :=
  match snat_ports with
  | [] => Some []
  | p :: rest =>
      match fixed_ips p with
      | [] => None
      | f :: _ =>
          match match_ports subnet rest with
          | None => None
          | Some ps => Some (if bool_decide (subnet_id f = subnet) then p :: ps else ps)
          end
      end
  end.

(** Return the SNAT port for the given internal interface port. *)
Definition _map_internal_interfaces (int_port : Port) (snat_ports : list Port)
    (w : World) : MapOutcome * World :=
  match fixed_ips int_port with
  | [] => (map_IndexError, w)
  | fixed_ip :: _ =>
      let subnet := subnet_id fixed_ip in
      match match_ports subnet snat_ports with
      | None => (map_IndexError, w)
      | Some (port :: _) => (map_returns (Some port), w)
      | Some [] =>
          (map_returns None, record (LOG error "DVR: no map match_port found!" []) w)
      end
  end.

(** A port as the plugin reports it for a subnet. *)
Record PluginPort := mkPluginPort {
  device_owner : string;
  mac_address : string;
  plugin_fixed_ips : list FixedIp
}.

(** Set ARP info retrieved from Plugin for existing ports.

    [ROUTER_INTERFACE_OWNERS] is the constant of [l3_constants];
    [get_ports_by_subnet] is the plugin RPC ([None] when it fails);
    [port_subnet] is [port['subnet']], [None] when the port has no such
    key. *)
Definition _set_subnet_arp_info `{Environment} (ROUTER_INTERFACE_OWNERS : list string)
    (get_ports_by_subnet : string → option (list PluginPort))
    (ri : RouterInfo) (port_subnet : option (gmap string string)) : Py World unit :=
  match port_subnet with
  | None => raise KeyError
  | Some subnet =>
      if bool_decide ("id" ∉ dom subnet) || negb (distributed (router ri)) then mret tt
      else
        subnet_id ← getitem subnet "id";
        match get_ports_by_subnet subnet_id with
        | None => raise PrimitiveError
        | Some subnet_ports =>
            for_each subnet_ports (λ p,
              if bool_decide (device_owner p ∉ ROUTER_INTERFACE_OWNERS) then
                for_each (plugin_fixed_ips p) (λ fixed_ip,
                  _update_arp_entry ri (ip_address fixed_ip) (mac_address p)
                    subnet_id "add")
              else mret tt)
        end
  end.

(** [KeepalivedStateChangeHandler.enqueue] *)
Definition handler_enqueue `{Environment} (rid state : string) : Py World unit :=
  log debug "Handling notification for router %(router_id)s, state %(state)s"
    [rid; state];;
  enqueue_state_change rid state.

(** [KeepalivedStateChangeHandler.__call__], on the request's headers. *)
Definition handler_call `{Environment} (headers : gmap string string) : Py World unit :=
  rid ← getitem headers "X-Neutron-Router-Id";
  state ← getitem headers "X-Neutron-State";
  handler_enqueue rid state.

(** The notifications of a run, handled one after the other; an exception
    ends the run. *)
Definition handle_all `{Environment} (requests : list (gmap string string))
    : Py World unit :=
  for_each requests handler_call.

(** The driver call a state token stands for. *)
Definition proxy_call `{Environment} (ri : RouterInfo) (state : string) : Effect :=
  if bool_decide (state = "master")
  then spawn_monitored_metadata_proxy (ns_name ri) metadata_port (router_id ri)
  else destroy_monitored_metadata_proxy (router_id ri) (ns_name ri).

Definition is_LOG (e : Effect) : bool :=
  match e with
  | LOG _ _ _ => true
  | _ => false
  end.

(** The calls of a trace that are not log lines. *)
Definition primitives (es : list Effect) : list Effect :=
  List.filter (λ e, negb (is_LOG e)) es.

(** Every entry of the memo table names an object in the store, and that
    object is the namespace of the entry's network. *)
Definition table_wf (w : World) : Prop :=
  ∀ k h, cache w !! k = Some h →
         ∃ o, objects w !! h = Some o ∧ _ext_net_id o = k.

(** [m] keeps [P], whether it returns or raises. *)
Definition preserves {S A} (P : S → Prop) (m : Py S A) : Prop :=
  ∀ s, P s → P (m s).2.

(** [port] has a fixed IP on [subnet]. *)
Definition on_subnet (subnet : string) (port : Port) : Prop :=
  ∃ f, f ∈ fixed_ips port ∧ subnet_id f = subnet.

(** The first fixed IP of [p] is on [subnet]. *)
Definition first_on (subnet : string) (p : Port) : bool :=
  match fixed_ips p with
  | f :: _ => bool_decide (subnet_id f = subnet)
  | [] => false
  end.

(** The devices a trace unplugs, in order. *)
Definition unplugged (t : list NamespaceCall) : list string :=
  omap (λ c, match c with driver_unplug d _ _ => Some d | _ => None end) t.

Definition is_delete_namespace (c : NamespaceCall) : bool :=
  match c with delete_namespace _ => true | _ => false end.

(** The loop of [_destroy_snat_namespace] over the devices. *)
Definition unplug_loop (fails : NamespaceCall → bool) (ns : string)
    (devices : list string) : Py (list NamespaceCall) unit :=
  for_each devices (λ d,
    if startswith SNAT_INT_DEV_PREFIX d then
      ns_log "Unplugging DVR device %s" [d];;
      ns_call fails (driver_unplug d ns SNAT_INT_DEV_PREFIX)
    else mret tt).

(** [self.fullsync = True] *)
Definition flag_fullsync (w : World) : World :=
  mkWorld (set_fullsync true (self w)) (objects w) (trace w).

(** The calls of [_snat_redirect_add], when the port has a CIDR that
    parses. *)
Definition snat_add_calls (ri : RouterInfo) (gateway : string) (sn_port : Port)
    (sn_int : string) : list Effect :=
  match ip_cidr sn_port with
  | Some cidr =>
      match _get_snat_idx cidr with
      | Some idx =>
          [route_add_gateway (ns_name ri) sn_int gateway idx;
           IpRule_add (ns_name ri) cidr idx idx;
           netns_execute (ns_name ri)
             ["sysctl"; "-w"; "net.ipv4.conf." +:+ sn_int +:+ ".send_redirects=0"]]
      | None => []
      end
  | None => []
  end.

(** The calls of [_snat_redirect_remove]. *)
Definition snat_remove_calls (ri : RouterInfo) (sn_port : Port) (sn_int : string)
    : list Effect :=
  match ip_cidr sn_port with
  | Some cidr =>
      match _get_snat_idx cidr with
      | Some idx =>
          [route_delete_gateway (ns_name ri) sn_int None idx;
           IpRule_delete (ns_name ri) cidr idx idx]
      | None => []
      end
  | None => []
  end.

(** Either every call of [calls] was made and nothing was logged, or the
    calls stop at a failure, which is logged. *)
Definition all_or_logged (calls emitted : list Effect) (msg : string) : Prop :=
  (calls ≠ [] ∧ emitted = calls)
  ∨ ∃ k, (k ≤ length calls)%nat ∧ emitted = take k calls ++ [LOG exception msg []].

(** The port has a CIDR, and the CIDR has a table index: neither
    [sn_port['ip_cidr']] nor [_get_snat_idx] raises. *)
Definition snat_port_valid (sn_port : Port) : bool :=
  match ip_cidr sn_port with
  | Some cidr => bool_decide (is_Some (_get_snat_idx cidr))
  | None => false
  end.

(** The calls made when [calls] are attempted in turn from trace [t] on,
    each recorded as it is made and the first one to raise ending the run;
    the flag tells whether one raised. *)
Fixpoint attempted `{Environment} (t : list Effect) (calls : list Effect)
    : list Effect * bool :=
  match calls with
  | [] => ([], false)
  | e :: rest =>
      if raises t e then ([e], true)
      else let r := attempted (t ++ [e]) rest in (e :: r.1, r.2)
  end.

(** What a guarded run of [calls] adds to the trace [t]: the log line alone
    when the input was refused before the first call; otherwise the calls
    attempted, with the log line after them exactly when one raised. *)
Definition guarded_run `{Environment} (t : list Effect) (valid : bool)
    (calls : list Effect) (msg : string) : list Effect :=
  if valid
  then (attempted t calls).1
       ++ (if (attempted t calls).2 then [LOG exception msg []] else [])
  else [LOG exception msg []].

(** The (ip, mac) pairs of the ports the router does not own. *)
Definition arp_pairs (owners : list string) (subnet_ports : list PluginPort)
    : list (string * string) :=
  flat_map (λ p, if bool_decide (device_owner p ∉ owners)
                 then (λ f, (ip_address f, mac_address p)) <$> plugin_fixed_ips p
                 else []) subnet_ports.

(** The pair's IP, with [/32] appended, parses. *)
Definition valid_ip (pair : string * string) : bool :=
  bool_decide (is_Some (netaddr.parse (pair.1 +:+ "/32"))).

(** [netaddr.IPNetwork(ip + '/32').version] *)
Definition ip_version (ip : string) : Z :=
  match netaddr.parse (ip +:+ "/32") with
  | Some net => netaddr.version net
  | None => 0
  end.

(** The neighbour-entry calls of a trace. *)
Definition neighbour_calls (es : list Effect) : list Effect := List.filter is_neigh es.

(** [w'] is [w] after some calls [es], with only [fullsync] possibly
    changed in the agent. *)
Definition arp_step (w w' : World) (es : list Effect) : Prop :=
  trace w' = trace w ++ es
  ∧ objects w' = objects w
  ∧ _fip_namespaces (self w') = _fip_namespaces (self w)
  ∧ router_info (self w') = router_info (self w)
  ∧ agent_local_subnets (self w') = agent_local_subnets (self w).

(** The neighbour entry seeded for one (ip, mac) pair. *)
Definition seed_call `{Environment} (ri : RouterInfo) (port : Port)
    (pair : string * string) : Effect :=
  neigh_add (ns_name ri) (get_internal_device_name (id port)) (ip_version pair.1)
    pair.1 pair.2.

(** The headers keepalived's notifier sends for one transition. *)
Definition request_headers (note : string * string) : gmap string string :=
  {["X-Neutron-Router-Id" := note.1; "X-Neutron-State" := note.2]}.

(** The two log lines in front of [_update_metadata_proxy]. *)
Definition notification_logs (rid state : string) : list Effect :=
  [LOG debug "Handling notification for router %(router_id)s, state %(state)s"
     [rid; state];
   LOG info "Router %(router_id)s transitioned to %(state)s" [rid; state]].

(** The log line of [_update_metadata_proxy] for a state token. *)
Definition proxy_log (rid state : string) : Effect :=
  if bool_decide (state = "master")
  then LOG debug "Spawning metadata proxy for router %s" [rid]
  else LOG debug "Closing metadata proxy for router %s" [rid].

(** Inputs for running the rest of the mixins. *)
Definition fails_only (failing : NamespaceCall) (c : NamespaceCall) : bool :=
  bool_decide (c = failing).

Definition example_owners : list string :=
  ["network:router_interface"; "network:router_interface_distributed"].

Definition example_subnet_ports : list PluginPort :=
  [mkPluginPort "compute:nova" "fa:16:3e:00:00:07" [mkFixedIp "subnet-1" "10.0.0.7"];
   mkPluginPort "network:router_interface" "fa:16:3e:00:00:01"
     [mkFixedIp "subnet-1" "10.0.0.1"];
   mkPluginPort "compute:nova" "fa:16:3e:00:00:08"
     [mkFixedIp "subnet-1" "10.0.0.8"; mkFixedIp "subnet-1" "not-an-ip"]].

Definition example_rpc (sid : string) : option (list PluginPort) :=
  if bool_decide (sid = "subnet-1") then Some example_subnet_ports else None.

Definition managed_world : World :=
  mkWorld (mkAgent ∅ {["r1" := example_router]} false None) [] [].

(** The fault-free deployment, except that adding a policy rule fails. *)
Definition rule_add_fails : Environment := {|
  FIP_NS_PREFIX := "fip-";
  FIP_RT_TBL := 16;
  get_int_device_name := λ rid, PyStr.take 14 ("fpr-" +:+ rid);
  get_rtr_ext_device_name := λ rid, PyStr.take 14 ("rfp-" +:+ rid);
  get_ext_device_name := λ pid, PyStr.take 14 ("fg-" +:+ pid);
  get_internal_device_name := λ pid, PyStr.take 14 ("qr-" +:+ pid);
  new_rule_priorities := [32768; 32769; 32770; 32771];
  new_local_subnets := mkAllocator ∅ example_pool;
  metadata_port := 9697;
  raises := λ _ e, match e with IpRule_add _ _ _ _ => true | _ => false end
|}.

(** SNAT ports: the one on [subnet-1], then one without any fixed IP. *)
Definition example_snat_ports : list Port :=
  [example_sn_port; mkPort "p2" [] None].

(** ** The SNAT table index *)

Section SnatIndex.

Example crc32_check : binascii.crc32_unsigned "123456789" = 0xCBF43926.
Proof. reflexivity. Qed.

Lemma land_mask32_range (x : Z) : 0 ≤ Z.land x 0xffffffff < 2 ^ 32.
Proof.
  change 0xffffffff with (Z.ones 32).
  rewrite Z.land_ones by lia.
  apply Z.mod_pos_bound. lia.
Qed.

Lemma xor_fold_nonneg (x : Z) :
  0 ≤ x → 0 ≤ Z.lxor (Z.shiftr x 30) (Z.land x MASK_30).
Proof.
  intros Hx. apply Z.lxor_nonneg. split; intros _.
  - apply Z.land_nonneg. left. exact Hx.
  - apply Z.shiftr_nonneg. exact Hx.
Qed.

Lemma snat_fold_ge (crc : Z) : 32768 ≤ snat_fold crc.
Proof.
  unfold snat_fold.
  pose proof (land_mask32_range crc) as [Hlo _].
  pose proof (xor_fold_nonneg _ Hlo) as Hfold.
  destruct (Z.ltb_spec (Z.lxor (Z.shiftr (Z.land crc 0xffffffff) 30)
                          (Z.land (Z.land crc 0xffffffff) MASK_30)) 32768);
    unfold MASK_30 in *; lia.
Qed.

Example get_snat_idx_ipv6_example : _get_snat_idx "fe80::1/64" = Some 177359364.
Proof. vm_compute. reflexivity. Qed.

(** The IPv6 branch stays clear of the system-generated entries. *)
Lemma get_snat_idx_ipv6_ge (ip_cidr : string) (net : netaddr.IPNetwork) (idx : Z) :
  netaddr.parse ip_cidr = Some net →
  netaddr.version net = 6 →
  _get_snat_idx ip_cidr = Some idx →
  32768 ≤ idx.
Proof.
  unfold _get_snat_idx. intros -> ->. simpl. intros [= <-]. apply snat_fold_ge.
Qed.

Lemma digit_range (c : ascii) (d : Z) : netaddr.digit c = Some d → 0 ≤ d ≤ 9.
Proof.
  unfold netaddr.digit. intros Hd.
  destruct ((48 <=? PyStr.code c) && (PyStr.code c <=? 57)) eqn:Hb;
    [|discriminate].
  apply andb_prop in Hb as [H1%Z.leb_le H2%Z.leb_le]. injection Hd as <-. lia.
Qed.

Lemma number_aux_digit_nonneg (s : string) (acc n : Z) :
  0 ≤ acc → netaddr.number_aux 10 netaddr.digit s acc = Some n → 0 ≤ n.
Proof.
  revert acc. induction s as [|c s IH]; simpl; intros acc Hacc.
  - intros [= <-]. exact Hacc.
  - destruct (netaddr.digit c) as [d|] eqn:Hd; [|discriminate].
    apply digit_range in Hd. apply IH. lia.
Qed.

Lemma octet_range (s : string) (n : Z) : netaddr.octet s = Some n → 0 ≤ n ≤ 255.
Proof.
  unfold netaddr.octet, netaddr.number. intros Ho.
  case_bool_decide; [|discriminate].
  destruct (netaddr.number_aux 10 netaddr.digit s 0) as [m|] eqn:Hm; [|discriminate].
  apply number_aux_digit_nonneg in Hm; [|lia].
  destruct (Z.leb_spec m 255); [|discriminate].
  injection Ho as <-. lia.
Qed.

Lemma all_some_octets (l : list string) (os : list Z) :
  netaddr.all_some (netaddr.octet <$> l) = Some os →
  Forall (λ n, 0 ≤ n ≤ 255) os.
Proof.
  revert os. induction l as [|x l IH]; intros os.
  - intros [= <-]. constructor.
  - rewrite fmap_cons. cbn [netaddr.all_some].
    destruct (netaddr.octet x) as [n|] eqn:Hn; [|discriminate].
    destruct (netaddr.all_some (netaddr.octet <$> l)) as [os'|]; cbn; [|discriminate].
    intros [= <-]. constructor; [by apply octet_range in Hn | by apply IH].
Qed.

Lemma ipv4_range (addr : string) (v : Z) :
  netaddr.ipv4 addr = Some v → 0 ≤ v < 2 ^ 32.
Proof.
  unfold netaddr.ipv4.
  destruct (netaddr.all_some _) as [os|] eqn:Hos; [|discriminate].
  apply all_some_octets in Hos.
  destruct os as [|a [|b [|c [|d [|? ?]]]]]; try discriminate.
  intros [= <-].
  repeat match goal with
         | Hf : Forall _ (_ :: _) |- _ => apply Forall_cons in Hf as [? Hf]
         end.
  unfold netaddr.join. simpl. lia.
Qed.

Lemma network_ipv4_value (addr : string) (p : option string) (net : netaddr.IPNetwork) :
  netaddr.network addr p = Some net →
  netaddr.version net = 4 →
  0 ≤ netaddr.value net < 2 ^ 32.
Proof.
  unfold netaddr.network.
  destruct (netaddr.ipv4 addr) as [v|] eqn:Hv.
  - apply ipv4_range in Hv.
    destruct (netaddr.prefix 32 p); simpl; [|discriminate].
    by intros [= <-] _.
  - destruct (netaddr.ipv6 addr); [|discriminate].
    destruct (netaddr.prefix 128 p); simpl; [|discriminate].
    by intros [= <-] [=].
Qed.

Lemma parse_ipv4_value (text : string) (net : netaddr.IPNetwork) :
  netaddr.parse text = Some net →
  netaddr.version net = 4 →
  0 ≤ netaddr.value net < 2 ^ 32.
Proof.
  unfold netaddr.parse.
  destruct (PyStr.split "/" text) as [|addr [|p [|? ?]]]; try discriminate;
    apply network_ipv4_value.
Qed.

(** C3, at the failing input: the IPv4 branch hands back the address
    value as it is, and for a subnet in [0.0.0.0/17] that value lies below
    the 32768 system-generated entries the docstring says the index has to
    exceed. *)
Theorem get_snat_idx_ipv4_in_reserved_range :
  _get_snat_idx "0.0.1.0/24" = Some 256 ∧ 256 < 32768.
Proof. split; [reflexivity | lia]. Qed.

(** C7, as stated, fails: for an IPv4 CIDR with host bits set (the form a
    port's [ip_cidr] takes) the index is the value of the address as
    written, not the value of the network's base address. *)
Lemma get_snat_idx_not_base_address :
  ∃ net, netaddr.parse "10.0.0.1/24" = Some net
         ∧ netaddr.version net = 4
         ∧ netaddr.base_value net = 167772160
         ∧ _get_snat_idx "10.0.0.1/24" = Some 167772161
         ∧ _get_snat_idx "10.0.0.1/24" ≠ Some (netaddr.base_value net).
Proof.
  eexists. split; [reflexivity|].
  repeat split; try reflexivity. vm_compute. discriminate.
Qed.

(** C7, amended: [_get_snat_idx] is a function of the CIDR text alone
    (equal texts give equal results, whatever the agent's state, which it
    leaves as it is), and for every IPv4 CIDR the result is the 32-bit
    integer value of the address written in the CIDR; that is the
    network's base address whenever the CIDR has no host bit set, as in
    [10.0.0.0/24]. *)
Theorem get_snat_idx_ipv4_value (ip_cidr : string) (net : netaddr.IPNetwork) :
  netaddr.parse ip_cidr = Some net →
  netaddr.version net = 4 →
  (∀ other, other = ip_cidr → _get_snat_idx other = _get_snat_idx ip_cidr)
  ∧ (∀ w1 w2 : World, (snat_idx_of ip_cidr w1).1 = (snat_idx_of ip_cidr w2).1
                      ∧ (snat_idx_of ip_cidr w1).2 = w1)
  ∧ _get_snat_idx ip_cidr = Some (netaddr.value net)
  ∧ 0 ≤ netaddr.value net < 2 ^ 32
  ∧ (netaddr.value net = netaddr.base_value net →
     _get_snat_idx ip_cidr = Some (netaddr.base_value net)).
Proof.
  intros Hparse Hv4.
  assert (Hidx : _get_snat_idx ip_cidr = Some (netaddr.value net)).
  { unfold _get_snat_idx. rewrite Hparse, Hv4. reflexivity. }
  split; [by intros ? ->|].
  split.
  { intros w1 w2. unfold snat_idx_of. rewrite Hidx. split; reflexivity. }
  split; [exact Hidx|].
  split; [by eapply parse_ipv4_value|].
  by intros <-.
Qed.

Lemma get_snat_idx_ipv4_value_witness :
  _get_snat_idx "10.0.0.0/24" = Some 167772160
  ∧ _get_snat_idx "10.0.0.0/24" = Some (netaddr.base_value (netaddr.mkIPNetwork 4 167772160 24)).
Proof.
  pose proof (get_snat_idx_ipv4_value "10.0.0.0/24"
                (netaddr.mkIPNetwork 4 167772160 24) eq_refl eq_refl)
    as (_ & _ & Hidx & _ & Hbase).
  split; [exact Hidx | apply Hbase; reflexivity].
Defined.

End SnatIndex.

(** ** Running the monad symbolically *)

Ltac py_run :=
  repeat (progress (unfold mbind, Py_bind, mret, Py_ret, get, modify, raise,
                      getitem, try_except, call, log, deref, store,
                      set_self, set_objects, record;
                    cbn [fst snd self objects trace])).

(** ** The FIP-namespace table *)

Section FipNamespaceTable.
Context `{Environment}.

Lemma get_fip_ns_cached (x : PyValue) (w : World) (h : nat) :
  cache w !! str x = Some h → get_fip_ns x w = (Returns h, w).
Proof.
  unfold cache, get_fip_ns. intros Hc.
  unfold mbind, Py_bind, get, getitem. simpl.
  rewrite bool_decide_eq_false_2.
  - simpl. by rewrite Hc.
  - intros Hnot. apply not_elem_of_dom in Hnot. congruence.
Qed.

Lemma get_fip_ns_fresh (x : PyValue) (w : World) :
  cache w !! str x = None →
  get_fip_ns x w =
    (Returns (length (objects w)),
     mkWorld (set_fip_namespaces (<[str x:=length (objects w)]>) (self w))
       (objects w ++ [mkFipNamespace (str x) ∅ new_rule_priorities None
                        new_local_subnets])
       (trace w)).
Proof.
  unfold cache, get_fip_ns. intros Hc.
  unfold mbind, Py_bind, get, getitem. simpl.
  rewrite bool_decide_eq_true_2 by by apply not_elem_of_dom.
  simpl. by rewrite lookup_insert_eq.
Qed.

Lemma get_fip_ns_returns (x : PyValue) (w : World) :
  ∃ h, (get_fip_ns x w).1 = Returns h
       ∧ cache (get_fip_ns x w).2 !! str x = Some h.
Proof.
  destruct (cache w !! str x) as [h|] eqn:Hc.
  - exists h. by rewrite (get_fip_ns_cached _ _ _ Hc).
  - exists (length (objects w)). rewrite (get_fip_ns_fresh _ _ Hc).
    split; [done|]. unfold cache. simpl. by rewrite lookup_insert_eq.
Qed.

Lemma get_fip_ns_keeps (z : PyValue) (w : World) (k : string) (h : nat) :
  cache w !! k = Some h → cache (get_fip_ns z w).2 !! k = Some h.
Proof.
  intros Hk. destruct (cache w !! str z) as [h'|] eqn:Hc.
  - by rewrite (get_fip_ns_cached _ _ _ Hc).
  - rewrite (get_fip_ns_fresh _ _ Hc). unfold cache. simpl.
    rewrite lookup_insert_ne; [done|]. intros <-. unfold cache in *. congruence.
Qed.

Lemma get_fip_ns_many_keep (zs : list PyValue) (w : World) (k : string) (h : nat) :
  cache w !! k = Some h →
  cache (foldl (λ w z, (get_fip_ns z w).2) w zs) !! k = Some h.
Proof.
  revert w. induction zs as [|z zs IH]; simpl; intros w Hk; [done|].
  apply IH. by apply get_fip_ns_keeps.
Qed.

(** C8: [get_fip_ns] is memoized by the string form of the external
    network id.  The first call returns a handle; it builds a
    [FipNamespace] object only when the id is not in the table yet (and
    then exactly one, for that id); and after any number of further
    [get_fip_ns] calls, a call with an id of the same string form returns
    the identical handle and leaves the agent, the object store and the
    trace as they are. *)
Theorem get_fip_ns_memoized (x y : PyValue) (between : list PyValue) (w : World) :
  str x = str y →
  let w1 := (get_fip_ns x w).2 in
  let w2 := foldl (λ w z, (get_fip_ns z w).2) w1 between in
  ∃ h : nat,
    (get_fip_ns x w).1 = Returns h
    ∧ (if decide (str x ∈ dom (cache w)) then w1 = w
       else h = length (objects w)
            ∧ objects w1 = objects w ++ [mkFipNamespace (str x) ∅ new_rule_priorities
                                           None new_local_subnets])
    ∧ get_fip_ns y w2 = (Returns h, w2).
Proof.
  intros Hxy w1 w2.
  destruct (get_fip_ns_returns x w) as (h & Hret & Hcached).
  exists h. split; [exact Hret|]. split.
  - subst w1. destruct (decide _) as [Hin|Hout].
    + apply elem_of_dom in Hin as [h' Hc]. by rewrite (get_fip_ns_cached _ _ _ Hc).
    + apply not_elem_of_dom in Hout. rewrite (get_fip_ns_fresh _ _ Hout) in Hret |- *.
      simpl in *. split; [congruence | done].
  - apply get_fip_ns_cached. rewrite <- Hxy.
    subst w2. by apply get_fip_ns_many_keep.
Qed.

(** The memo entry does not survive [_destroy_fip_namespace]: the next
    [get_fip_ns] builds a new object. *)
Lemma destroy_evicts (ns : string) (w : World) :
  cache (_destroy_fip_namespace ns w).2
    !! PyStr.drop (String.length FIP_NS_PREFIX) ns = None.
Proof.
  unfold _destroy_fip_namespace.
  set (k := PyStr.drop _ ns).
  destruct (get_fip_ns_returns (PyString k) w) as (h & Hret & Hc).
  unfold mbind at 1. unfold Py_bind.
  destruct (get_fip_ns (PyString k) w) as [o w1]. simpl in Hret, Hc. subst o.
  py_run. rewrite bool_decide_eq_true_2 by (apply elem_of_dom; eauto).
  unfold destroy. py_run. destruct (objects w1 !! h); py_run.
  - match goal with |- context [raises ?t ?e] => destruct (raises t e) end;
      unfold cache; simpl; apply lookup_delete_eq.
  - unfold cache; simpl; apply lookup_delete_eq.
Qed.

End FipNamespaceTable.

Lemma get_fip_ns_memoized_witness :
  ∃ h : nat,
    (@get_fip_ns quiet (PyInt 42) empty_world).1 = Returns h
    ∧ @get_fip_ns quiet (PyString "42")
        (foldl (λ w z, (@get_fip_ns quiet z w).2)
           (@get_fip_ns quiet (PyInt 42) empty_world).2 [PyString "7"; PyInt 42])
      = (Returns h,
         foldl (λ w z, (@get_fip_ns quiet z w).2)
           (@get_fip_ns quiet (PyInt 42) empty_world).2 [PyString "7"; PyInt 42]).
Proof.
  destruct (@get_fip_ns_memoized quiet (PyInt 42) (PyString "42")
              [PyString "7"; PyInt 42] empty_world eq_refl) as (h & Hret & _ & Hagain).
  exists h. split; [exact Hret | exact Hagain].
Defined.

(** ** Trace bookkeeping *)

Lemma emitted_app (w w' : World) (es : list Effect) :
  trace w' = trace w ++ es → emitted w w' = es.
Proof. unfold emitted. intros ->. by rewrite drop_app_length. Qed.

Lemma emitted_nil (w : World) : emitted w w = [].
Proof. apply emitted_app. by rewrite app_nil_r. Qed.

Ltac trace_tail := cbn [trace]; rewrite <- ?app_assoc; reflexivity.

Ltac trace_done := apply emitted_app; trace_tail.

(** ** The keepalived state-change handler *)

Section HA.
Context `{Environment}.

(** C10: for a managed router, the token ["master"] and no other makes
    [_update_metadata_proxy] spawn the monitored metadata proxy; every
    other token makes it destroy the proxy.  Nothing else is called, and
    the agent is left as it is; [enqueue_state_change] only adds its log
    line in front. *)
Theorem update_metadata_proxy_master_only (rid state : string) (w : World)
    (ri : RouterInfo) :
  router_info (self w) !! rid = Some ri →
  let w' := (_update_metadata_proxy rid state w).2 in
  let calls :=
    if decide (state = "master")
    then [LOG debug "Spawning metadata proxy for router %s" [rid];
          spawn_monitored_metadata_proxy (ns_name ri) metadata_port (router_id ri)]
    else [LOG debug "Closing metadata proxy for router %s" [rid];
          destroy_monitored_metadata_proxy (router_id ri) (ns_name ri)] in
  emitted w w' = calls
  ∧ self w' = self w
  ∧ objects w' = objects w
  ∧ emitted w (enqueue_state_change rid state w).2
    = LOG info "Router %(router_id)s transitioned to %(state)s" [rid; state] :: calls.
Proof.
  intros Hri. unfold enqueue_state_change, _update_metadata_proxy.
  py_run. rewrite Hri. py_run.
  destruct (decide (state = "master")) as [->|Hne].
  - rewrite bool_decide_eq_true_2 by done. py_run.
    repeat match goal with |- context [raises ?t ?e] => destruct (raises t e) end;
      cbn [fst snd self objects trace];
      (split; [trace_done|]); (split; [done|]); (split; [done|]); trace_done.
  - rewrite bool_decide_eq_false_2 by done. py_run.
    repeat match goal with |- context [raises ?t ?e] => destruct (raises t e) end;
      cbn [fst snd self objects trace];
      (split; [trace_done|]); (split; [done|]); (split; [done|]); trace_done.
Qed.

End HA.

Lemma update_metadata_proxy_master_only_witness :
  let w := mkWorld (mkAgent ∅ {["r1" := example_router]} false None) [] [] in
  emitted w (@_update_metadata_proxy quiet "r1" "unknown" w).2
  = [LOG debug "Closing metadata proxy for router %s" ["r1"];
     destroy_monitored_metadata_proxy "r1" "qrouter-r1"].
Proof.
  intros w.
  apply (@update_metadata_proxy_master_only quiet "r1" "unknown" w example_router).
  reflexivity.
Defined.

(** ** ARP entries *)

Section Arp.
Context `{Environment}.

(** C9: [_update_arp_entry] returns normally on every input and under
    every behaviour of the primitives; whenever the neighbour-entry
    primitive it invoked raised, the failure has been logged and the
    agent's [fullsync] flag is set. *)
Theorem update_arp_entry_contains_failures (ri : RouterInfo)
    (ip mac subnet operation : string) (w : World) :
  let w' := (_update_arp_entry ri ip mac subnet operation w).2 in
  (_update_arp_entry ri ip mac subnet operation w).1 = Returns tt
  ∧ ∀ e, e ∈ emitted w w' → is_neigh e = true → raises (trace w) e = true →
         fullsync (self w') = true
         ∧ emitted w w' = [e; LOG exception "DVR: Failed updating arp entry" []].
Proof.
  unfold _update_arp_entry.
  destruct (get_internal_port ri subnet) as [port|]; py_run.
  2:{ split; [done|]. rewrite emitted_nil. intros e He. by apply elem_of_nil in He. }
  destruct (netaddr.parse (ip +:+ "/32")) as [net|]; py_run.
  2:{ split; [done|]. erewrite emitted_app by (cbn [trace]; reflexivity).
      intros e He Hn. apply list_elem_of_singleton in He as ->. discriminate. }
  repeat case_bool_decide; py_run;
    repeat match goal with |- context [raises ?t ?e] => destruct (raises t e) eqn:? end;
    py_run; (split; [done|]); intros e He Hn Hr.
  - erewrite emitted_app in He |- * by trace_tail.
    apply elem_of_cons in He as [->|He]; [done|].
    apply list_elem_of_singleton in He as ->. discriminate.
  - erewrite emitted_app in He by trace_tail.
    apply list_elem_of_singleton in He as ->. congruence.
  - erewrite emitted_app in He |- * by trace_tail.
    apply elem_of_cons in He as [->|He]; [done|].
    apply list_elem_of_singleton in He as ->. discriminate.
  - erewrite emitted_app in He by trace_tail.
    apply list_elem_of_singleton in He as ->. congruence.
  - rewrite emitted_nil in He. by apply elem_of_nil in He.
Qed.

(** A failing [neigh.add] is contained and flags the resync. *)
Example update_arp_entry_failure_sets_fullsync :
  ∀ ri ip mac subnet port net,
    get_internal_port ri subnet = Some port →
    netaddr.parse (ip +:+ "/32") = Some net →
    (∀ t e, raises t e = true) →
    ∀ w, fullsync (self (_update_arp_entry ri ip mac subnet "add" w).2) = true.
Proof.
  intros ri ip mac subnet port net Hport Hnet Hr w.
  unfold _update_arp_entry. rewrite Hport. py_run. rewrite Hnet. py_run.
  rewrite bool_decide_eq_true_2 by done. py_run. rewrite Hr. reflexivity.
Qed.

(** With every primitive failing, the add RPC for a managed router still
    returns; the failure is logged and the resync flag raised. *)
Example add_arp_entry_contains_failure :
  let w := mkWorld (mkAgent ∅ {["r1" := arp_router]} false None) [] [] in
  @add_arp_entry faulty example_payload w
  = (Returns tt,
     mkWorld (mkAgent ∅ {["r1" := arp_router]} true None) []
       [neigh_add "qrouter-r1" "qr-p1" 4 "10.0.0.7" "fa:16:3e:00:00:07";
        LOG exception "DVR: Failed updating arp entry" []]).
Proof. vm_compute. reflexivity. Qed.

(** C5, amended: an ARP add or delete RPC that names a router absent from
    [router_info] returns without raising and leaves the agent, the object
    store and the trace exactly as they were: the event is dropped, and
    nothing is logged. *)
Theorem arp_event_for_unmanaged_router_dropped (payload : Payload) (w : World) :
  router_info (self w) !! payload_router_id payload = None →
  add_arp_entry payload w = (Returns tt, w)
  ∧ del_arp_entry payload w = (Returns tt, w).
Proof.
  intros Hnone. unfold add_arp_entry, del_arp_entry. py_run.
  rewrite Hnone. by py_run.
Qed.

End Arp.

Lemma arp_event_for_unmanaged_router_dropped_witness :
  @add_arp_entry quiet example_payload empty_world = (Returns tt, empty_world)
  ∧ @del_arp_entry quiet example_payload empty_world = (Returns tt, empty_world).
Proof.
  apply (@arp_event_for_unmanaged_router_dropped quiet example_payload empty_world).
  reflexivity.
Defined.

(** C5, as stated, fails on both kinds of event: for a router absent from
    [router_info] the state-change handler raises [KeyError] (its handler
    catches [AttributeError] only, so the log line is never reached), and
    the ARP RPC returns without logging anything. *)
Lemma unmanaged_router_event_raises_or_is_silent :
  @_update_metadata_proxy quiet "r1" "master" empty_world
    = (Raises KeyError, empty_world)
  ∧ (@enqueue_state_change quiet "r1" "backup" empty_world).1 = Raises KeyError
  ∧ router_info (self empty_world) !! payload_router_id example_payload = None
  ∧ emitted empty_world (@add_arp_entry quiet example_payload empty_world).2 = [].
Proof. repeat split; vm_compute; reflexivity. Qed.

(** ** SNAT redirection *)

Section SnatRedirect.
Context `{Environment}.

(** Neither redirect operation lets an exception out. *)
Lemma snat_redirect_returns (ri : RouterInfo) (gateway : string) (sn_port : Port)
    (sn_int : string) (w : World) :
  (_snat_redirect_add ri gateway sn_port sn_int w).1 = Returns tt
  ∧ (_snat_redirect_remove ri sn_port sn_int w).1 = Returns tt.
Proof.
  unfold _snat_redirect_add, _snat_redirect_remove, port_ip_cidr, snat_idx_of.
  destruct (ip_cidr sn_port) as [cidr|]; py_run; [|done].
  destruct (_get_snat_idx cidr) as [idx|]; py_run; [|done].
  repeat match goal with |- context [raises ?t ?e] => destruct (raises t e) end;
    py_run; done.
Qed.

(** [_snat_redirect_remove] executes no command at all in the namespace,
    whatever the primitives do. *)
Lemma snat_redirect_remove_no_execute (ri : RouterInfo) (sn_port : Port)
    (sn_int : string) (w : World) :
  Forall (λ e, is_netns_execute e = false)
    (emitted w (_snat_redirect_remove ri sn_port sn_int w).2).
Proof.
  unfold _snat_redirect_remove, port_ip_cidr, snat_idx_of.
  destruct (ip_cidr sn_port) as [cidr|]; py_run.
  2:{ erewrite emitted_app by trace_tail. by repeat constructor. }
  destruct (_get_snat_idx cidr) as [idx|]; py_run.
  2:{ erewrite emitted_app by trace_tail. by repeat constructor. }
  repeat match goal with |- context [raises ?t ?e] => destruct (raises t e) end;
    py_run; erewrite emitted_app by trace_tail; by repeat constructor.
Qed.

(** C6, amended: for the same subnet, [_snat_redirect_remove] reverses two
    of the three effects of [_snat_redirect_add].  When the primitives do
    not fail, add installs the default route in the subnet's table, the
    policy rule for the subnet's CIDR at the priority equal to the table
    index, and switches ICMP redirects off on the internal device; remove
    deletes that default route and that policy rule, and makes no other
    call: the redirect setting is left as add set it. *)
Theorem snat_redirect_remove_reverses_route_and_rule (ri : RouterInfo)
    (gateway : string) (sn_port : Port) (sn_int cidr : string) (idx : Z)
    (w : World) :
  ip_cidr sn_port = Some cidr →
  _get_snat_idx cidr = Some idx →
  (∀ t e, raises t e = false) →
  let w1 := (_snat_redirect_add ri gateway sn_port sn_int w).2 in
  let w2 := (_snat_redirect_remove ri sn_port sn_int w1).2 in
  emitted w w1 =
    [route_add_gateway (ns_name ri) sn_int gateway idx;
     IpRule_add (ns_name ri) cidr idx idx;
     netns_execute (ns_name ri)
       ["sysctl"; "-w"; "net.ipv4.conf." +:+ sn_int +:+ ".send_redirects=0"]]
  ∧ emitted w1 w2 =
    [route_delete_gateway (ns_name ri) sn_int None idx;
     IpRule_delete (ns_name ri) cidr idx idx]
  ∧ self w2 = self w ∧ objects w2 = objects w.
Proof.
  intros Hcidr Hidx Hquiet.
  unfold _snat_redirect_add, _snat_redirect_remove, port_ip_cidr, snat_idx_of.
  rewrite Hcidr. py_run. rewrite Hidx.
  repeat (py_run; rewrite ?Hquiet).
  split; [trace_done|]. split; [trace_done|]. done.
Qed.

End SnatRedirect.

Lemma snat_redirect_remove_reverses_route_and_rule_witness :
  let w1 := (@_snat_redirect_add quiet example_router "10.0.0.254" example_sn_port
               "qr-p1" empty_world).2 in
  let w2 := (@_snat_redirect_remove quiet example_router example_sn_port "qr-p1" w1).2 in
  emitted empty_world w1
  = [route_add_gateway "qrouter-r1" "qr-p1" "10.0.0.254" 167772161;
     IpRule_add "qrouter-r1" "10.0.0.1/24" 167772161 167772161;
     netns_execute "qrouter-r1"
       ["sysctl"; "-w"; "net.ipv4.conf." +:+ "qr-p1" +:+ ".send_redirects=0"]]
  ∧ emitted w1 w2
    = [route_delete_gateway "qrouter-r1" "qr-p1" None 167772161;
       IpRule_delete "qrouter-r1" "10.0.0.1/24" 167772161 167772161]
  ∧ self w2 = self empty_world ∧ objects w2 = objects empty_world.
Proof.
  apply (@snat_redirect_remove_reverses_route_and_rule quiet example_router
           "10.0.0.254" example_sn_port "qr-p1" "10.0.0.1/24" 167772161
           empty_world).
  - reflexivity.
  - reflexivity.
  - intros t e. reflexivity.
Defined.

(** C6, as stated, fails: after a fault-free add, the fault-free remove
    makes two calls, the route deletion and the rule deletion; no command is
    executed in the namespace, so the [send_redirects=0] that add wrote is
    never written back. *)
Lemma snat_redirect_remove_keeps_redirects_off :
  let w1 := (@_snat_redirect_add quiet example_router "10.0.0.254" example_sn_port
               "qr-p1" empty_world).2 in
  let w2 := (@_snat_redirect_remove quiet example_router example_sn_port "qr-p1" w1).2 in
  netns_execute "qrouter-r1" ["sysctl"; "-w"; "net.ipv4.conf.qr-p1.send_redirects=0"]
    ∈ emitted empty_world w1
  ∧ emitted w1 w2
    = [route_delete_gateway "qrouter-r1" "qr-p1" None 167772161;
       IpRule_delete "qrouter-r1" "10.0.0.1/24" 167772161 167772161]
  ∧ ¬ ∃ ns cmd, netns_execute ns cmd ∈ emitted w1 w2.
Proof.
  split; [vm_compute; set_solver|]. split; [reflexivity|].
  intros (ns & cmd & Hin). vm_compute in Hin.
  apply elem_of_cons in Hin as [Hin|Hin]; [discriminate|].
  apply list_elem_of_singleton in Hin. discriminate.
Qed.

(** ** Distributed floating IPs *)

Lemma drop_prefix (p s : string) : PyStr.drop (String.length p) (p +:+ s) = s.
Proof. induction p as [|c p IH]; [done | exact IH]. Qed.

Lemma emitted_same (w w' : World) : trace w' = trace w → emitted w w' = [].
Proof. intros Ht. apply emitted_app. by rewrite app_nil_r. Qed.

Ltac fip_unfold :=
  repeat (progress (unfold in_world, the_ri, set_ri, get_pair, get_name,
                      deallocate_rule_priority, local_subnets_release,
                      unsubscribe, destroy, _destroy_fip_namespace,
                      agent_local_subnets_allocate, allocate_rule_priority,
                      ext_device_name, set_rtr_fip_subnet, set_dist_fip_count,
                      set_floating_ips_dict;
                    py_run;
                    cbn [router_id ns_name router floating_ips_dict dist_fip_count
                           rtr_fip_subnet fip_ns])).

Ltac fip_split :=
  match goal with
  | |- context [match agent_local_subnets ?a with _ => _ end] =>
      destruct (agent_local_subnets a) eqn:?
  | |- context [match allocate ?r ?a with _ => _ end] =>
      destruct (allocate r a) as [[??]|] eqn:?
  | |- context [match @lookup _ _ (gmap string Z) _ ?k ?m with _ => _ end] =>
      destruct (m !! k) eqn:?
  | |- context [if raises ?t ?e then _ else _] =>
      destruct (raises t e) eqn:?
  | |- context [match ?x with _ => _ end] => is_var x; destruct x
  | |- _ => case_bool_decide
  end.

Ltac elem_of_list :=
  repeat setoid_rewrite elem_of_cons; repeat setoid_rewrite elem_of_nil.

Section FloatingIp.
Context `{Environment}.

#[local] Set Warnings "-clear-no-such-hyp".

(** C4: [floating_ip_removed_dist] invokes the destruction of a FIP
    namespace exactly when the router's count has reached zero and the
    [unsubscribe] it then made reported the last subscriber; the namespace
    destroyed is the router's own, and at that point its subscriber set is
    empty.  [unsubscribe] reports the last subscriber exactly when no
    other router is left in the set.  (The router's namespace is the one
    the memo table holds for its external network.) *)
Theorem fip_namespace_destroyed_only_on_last_unsubscribe (fip_cidr : string)
    (w : World) (ri : RouterInfo) (h : nat) (o : FipNamespace) :
  fip_ns ri = Some h →
  objects w !! h = Some o →
  cache w !! _ext_net_id o = Some h →
  let s' := (floating_ip_removed_dist fip_cidr (w, ri)).2 in
  let calls := emitted w s'.1 in
  ((∃ h', fip_ns_destroy h' ∈ calls)
   ↔ dist_fip_count s'.2 = 0 ∧ fip_ns_unsubscribe h (router_id ri) true ∈ calls)
  ∧ (∀ h', fip_ns_destroy h' ∈ calls →
       h' = h ∧ ∃ o', objects s'.1 !! h = Some o' ∧ _subscribers o' = ∅)
  ∧ (∀ is_last, fip_ns_unsubscribe h (router_id ri) is_last ∈ calls →
       is_last = bool_decide (_subscribers o ∖ {[router_id ri]} = ∅)).
Proof.
  intros Hns Hobj Hcache. unfold floating_ip_removed_dist.
  pose proof (lookup_lt_Some _ _ _ Hobj) as Hlen.
  assert (Hdom : _ext_net_id o ∈ dom (_fip_namespaces (self w)))
    by (apply elem_of_dom; eexists; exact Hcache).
  destruct ri as [rid nsn rtr dict cnt lease fns]; simpl in Hns; subst fns.
  repeat (fip_unfold;
          rewrite ?Hobj, ?drop_prefix;
          rewrite ?list_lookup_insert_eq by (rewrite ?length_insert; exact Hlen);
          rewrite ?(get_fip_ns_cached (PyString (_ext_net_id o)) _ h) by exact Hcache;
          rewrite ?(bool_decide_eq_true_2 (_ext_net_id o ∈ _)) by exact Hdom;
          try fip_split).
  all: cbn [fst snd self objects trace dist_fip_count router_id].
  all: first [ rewrite !emitted_same by reflexivity
             | erewrite !emitted_app by trace_tail ].
  all: rewrite ?list_lookup_insert_eq by (rewrite ?length_insert; exact Hlen).
  all: split; [|split]; [split| |]; elem_of_list; naive_solver.
Qed.

End FloatingIp.

Lemma fip_namespace_destroyed_only_on_last_unsubscribe_witness :
  let s' := (@floating_ip_removed_dist quiet "203.0.113.10/32" one_fip_state).2 in
  let calls := emitted one_fip_state.1 s'.1 in
  ((∃ h', fip_ns_destroy h' ∈ calls)
   ↔ dist_fip_count s'.2 = 0 ∧ fip_ns_unsubscribe 0 "r1" true ∈ calls)
  ∧ (∀ h', fip_ns_destroy h' ∈ calls →
       h' = 0%nat ∧ ∃ o', objects s'.1 !! 0%nat = Some o' ∧ _subscribers o' = ∅)
  ∧ (∀ is_last, fip_ns_unsubscribe 0 "r1" is_last ∈ calls →
       is_last = bool_decide (_subscribers one_fip_ns ∖ {["r1"]} = ∅)).
Proof.
  apply (@fip_namespace_destroyed_only_on_last_unsubscribe quiet "203.0.113.10/32"
           one_fip_state.1 one_fip_state.2 0%nat one_fip_ns).
  - reflexivity.
  - reflexivity.
  - reflexivity.
Defined.

(** In that run the namespace is indeed destroyed: the router was its only
    subscriber. *)
Example last_fip_removed_destroys_namespace :
  emitted one_fip_state.1
    (@floating_ip_removed_dist quiet "203.0.113.10/32" one_fip_state).2.1
  = [IpRule_delete "qrouter-r1" "203.0.113.10" 16 32768;
     route_delete_route "fip-ext-net" "fpr-r1" "203.0.113.10/32" "169.254.30.0";
     route_delete_gateway "qrouter-r1" "rfp-r1" (Some "169.254.30.1") 16;
     del_veth "fip-ext-net" "fpr-r1";
     fip_ns_unsubscribe 0 "r1" true;
     fip_ns_destroy 0].
Proof. reflexivity. Qed.

(** ** Removing an address that is not in the table *)

Section UnknownFip.
Context `{Environment}.

#[local] Set Warnings "-clear-no-such-hyp".


End UnknownFip.



(** ** The floating-IP count and the floating-IP table *)

Ltac fip_unfold_outer :=
  repeat (progress (unfold in_world, the_ri, set_ri, get_pair, get_name,
                      deallocate_rule_priority, local_subnets_release,
                      unsubscribe,
                      agent_local_subnets_allocate, allocate_rule_priority,
                      ext_device_name, set_rtr_fip_subnet, set_dist_fip_count,
                      set_floating_ips_dict;
                    py_run;
                    cbn [router_id ns_name router floating_ips_dict dist_fip_count
                           rtr_fip_subnet fip_ns])).

Ltac fip_split_outer :=
  match goal with
  | |- context [match agent_local_subnets ?a with _ => _ end] =>
      destruct (agent_local_subnets a) eqn:?
  | |- context [match allocate ?r ?a with _ => _ end] =>
      destruct (allocate r a) as [[??]|] eqn:?
  | |- context [match @lookup _ _ (gmap string Z) _ ?k ?m with _ => _ end] =>
      destruct (m !! k) eqn:?
  | |- context [if raises ?t ?e then _ else _] =>
      destruct (raises t e) eqn:?
  | |- context [_destroy_fip_namespace ?n ?w] =>
      destruct (_destroy_fip_namespace n w) as [[|] ?]
  | |- context [match _rule_priorities ?o with _ => _ end] =>
      destruct (_rule_priorities o) eqn:?
  | |- context [match agent_gateway_port ?o with _ => _ end] =>
      destruct (agent_gateway_port o) eqn:?
  | |- context [match ?x with _ => _ end] => is_var x; destruct x
  | |- _ => case_bool_decide
  end.

Section FloatingIpCount.
Context `{Environment}.

(** What a removal does to the router: the table is left as it is, and a
    removal that returns has lowered the count by one. *)
Lemma removed_dist_router (fip_cidr : string) (w : World) (ri : RouterInfo) :
  let r := floating_ip_removed_dist fip_cidr (w, ri) in
  floating_ips_dict r.2.2 = floating_ips_dict ri
  ∧ (r.1 = Returns tt → dist_fip_count r.2.2 = dist_fip_count ri - 1).
Proof.
  unfold floating_ip_removed_dist.
  destruct ri as [rid nsn rtr dict cnt lease [h|]].
  2:{ fip_unfold_outer. done. }
  destruct (objects w !! h) as [o|] eqn:Hobj.
  2:{ fip_unfold_outer. rewrite Hobj. done. }
  pose proof (lookup_lt_Some _ _ _ Hobj) as Hlen.
  repeat (fip_unfold_outer;
          rewrite ?Hobj;
          rewrite ?list_lookup_insert_eq by (rewrite ?length_insert; exact Hlen);
          try fip_split_outer).
  all: cbn [fst snd floating_ips_dict dist_fip_count]; split; [done|]; intros; done.
Qed.

(** What an add that returns has done to the router: one table entry
    written, the count raised by one. *)
Lemma added_dist_router (fip : Fip) (fip_cidr : string) (w : World) (ri : RouterInfo) :
  let r := floating_ip_added_dist fip fip_cidr (w, ri) in
  r.1 = Returns tt →
  ∃ rule_pr,
    floating_ips_dict r.2.2 = <[floating_ip_address fip:=rule_pr]> (floating_ips_dict ri)
    ∧ dist_fip_count r.2.2 = dist_fip_count ri + 1.
Proof.
  unfold floating_ip_added_dist.
  destruct ri as [rid nsn rtr dict cnt lease [h|]].
  2:{ fip_unfold_outer. done. }
  destruct (objects w !! h) as [o|] eqn:Hobj.
  2:{ fip_unfold_outer. rewrite Hobj. done. }
  pose proof (lookup_lt_Some _ _ _ Hobj) as Hlen.
  repeat (fip_unfold_outer;
          rewrite ?Hobj;
          rewrite ?list_lookup_insert_eq by (rewrite ?length_insert; exact Hlen);
          try fip_split_outer).
  all: cbn [fst snd floating_ips_dict dist_fip_count]; intros; try done; by eexists.
Qed.

Lemma consistent_after_fresh_add (ri ri' : RouterInfo) (a : string) (rule_pr : Z) :
  consistent ri →
  floating_ips_dict ri !! a = None →
  floating_ips_dict ri' = <[a:=rule_pr]> (floating_ips_dict ri) →
  dist_fip_count ri' = dist_fip_count ri + 1 →
  consistent ri'.
Proof.
  unfold consistent. intros Hc Hfresh -> ->.
  rewrite map_size_insert_None by done. lia.
Qed.

Lemma fresh_adds_consistent (calls : list FipCall) (s : World * RouterInfo) :
  consistent s.2 →
  Forall (λ c, is_Some (added_address c)) calls →
  NoDup (omap added_address calls) →
  (∀ a, a ∈ omap added_address calls → floating_ips_dict s.2 !! a = None) →
  Forall (λ s', consistent s'.2) (states_after calls s).
Proof.
  revert s. induction calls as [|c calls IH]; intros [w ri] Hc Hadds Hnd Hfresh;
    [constructor|].
  apply Forall_cons in Hadds as [[a Ha] Hadds].
  destruct c as [fip cidr|]; [|discriminate]. injection Ha as <-.
  cbn [omap list_omap added_address] in Hnd, Hfresh.
  apply NoDup_cons in Hnd as [Hnotin Hnd].
  cbn [states_after fip_call].
  pose proof (added_dist_router fip cidr w ri) as Hadd. cbn zeta in Hadd.
  destruct (floating_ip_added_dist fip cidr (w, ri)) as [[[]|e] [w' ri']];
    [|constructor].
  destruct (Hadd eq_refl) as (rule_pr & Hdict & Hcount). cbn [fst snd] in *.
  assert (Hc' : consistent ri').
  { eapply consistent_after_fresh_add; [exact Hc| |exact Hdict|exact Hcount].
    apply Hfresh. left. }
  constructor; [exact Hc'|].
  apply IH; [exact Hc'|exact Hadds|exact Hnd|].
  intros a Hin. cbn [snd]. rewrite Hdict.
  rewrite lookup_insert_ne by (intros <-; contradiction).
  apply Hfresh. by right.
Qed.

(** C1, amended: from a router state whose count equals the size of its
    floating-IP table, the count equals the table size after each call of
    any sequence of [floating_ip_added_dist] calls that return and whose
    addresses are pairwise distinct and not yet in the table.
    [floating_ip_removed_dist] never takes an entry out of the table; a
    removal of an address in the table that returns lowers the count by
    one and leaves the entry where it is. *)
Theorem fip_count_tracks_fresh_adds (calls : list FipCall) (s : World * RouterInfo) :
  consistent s.2 →
  Forall (λ c, is_Some (added_address c)) calls →
  NoDup (omap added_address calls) →
  (∀ a, a ∈ omap added_address calls → floating_ips_dict s.2 !! a = None) →
  Forall (λ s', consistent s'.2) (states_after calls s)
  ∧ ∀ fip_cidr s0,
      let r := floating_ip_removed_dist fip_cidr s0 in
      floating_ips_dict r.2.2 = floating_ips_dict s0.2
      ∧ (is_Some (floating_ips_dict s0.2 !! PyStr.split_head "/" fip_cidr) →
         r.1 = Returns tt →
         dist_fip_count r.2.2 = dist_fip_count s0.2 - 1).
Proof.
  intros Hc Hadds Hnd Hfresh. split; [by apply fresh_adds_consistent|].
  intros fip_cidr [w0 ri0]. cbn zeta.
  destruct (removed_dist_router fip_cidr w0 ri0) as [Hdict Hcount].
  split; [exact Hdict|]. intros _. exact Hcount.
Qed.

End FloatingIpCount.

Lemma fip_count_tracks_fresh_adds_witness :
  Forall (λ s', consistent s'.2)
    (@states_after quiet
       [AddFip example_fip "203.0.113.10/32";
        AddFip (mkFip "203.0.113.11" "10.0.0.6") "203.0.113.11/32"]
       (fip_world, fip_router))
  ∧ length (@states_after quiet
       [AddFip example_fip "203.0.113.10/32";
        AddFip (mkFip "203.0.113.11" "10.0.0.6") "203.0.113.11/32"]
       (fip_world, fip_router)) = 2%nat.
Proof.
  split; [|reflexivity].
  apply (@fip_count_tracks_fresh_adds quiet
           [AddFip example_fip "203.0.113.10/32";
            AddFip (mkFip "203.0.113.11" "10.0.0.6") "203.0.113.11/32"]
           (fip_world, fip_router)).
  - reflexivity.
  - repeat constructor; eexists; reflexivity.
  - cbn. repeat constructor; rewrite ?elem_of_cons, ?elem_of_nil; intros Hin;
      repeat destruct Hin as [Hin|Hin]; try discriminate; done.
  - intros a Hin. reflexivity.
Defined.

(** C1, as stated, fails: from a router with no floating IP (count 0, empty
    table), adding [203.0.113.10] and removing it again, both calls
    returning, ends with count 0 and one entry in the table. *)
Lemma fip_count_diverges_from_table :
  consistent fip_router
  ∧ ∃ s1 s2,
      @states_after quiet
        [AddFip example_fip "203.0.113.10/32"; RemoveFip "203.0.113.10/32"]
        (fip_world, fip_router) = [s1; s2]
      ∧ consistent s1.2
      ∧ dist_fip_count s2.2 = 0
      ∧ size (floating_ips_dict s2.2) = 1%nat
      ∧ ¬ consistent s2.2.
Proof.
  split; [reflexivity|].
  eexists _, _. split; [vm_compute; reflexivity|].
  split; [vm_compute; reflexivity|].
  split; [vm_compute; reflexivity|].
  split; [vm_compute; reflexivity|].
  unfold consistent. vm_compute. discriminate.
Qed.


(** * Further properties of the two mixins *)

(** ** The range of the SNAT table index *)

Lemma lxor_below_2_30 (a b : Z) :
  0 ≤ a < 2 ^ 30 → 0 ≤ b < 2 ^ 30 → 0 ≤ Z.lxor a b < 2 ^ 30.
Proof.
  intros Ha Hb.
  assert (Hnn : 0 ≤ Z.lxor a b) by (apply Z.lxor_nonneg; lia).
  split; [exact Hnn|].
  destruct (Z.eq_dec (Z.lxor a b) 0) as [Hz|Hnz]; [rewrite Hz; lia|].
  apply Z.log2_lt_pow2; [lia|].
  eapply Z.le_lt_trans; [apply Z.log2_lxor; lia|].
  apply Z.max_lub_lt.
  - destruct (Z.eq_dec a 0) as [->|]; [simpl; lia|apply Z.log2_lt_pow2; lia].
  - destruct (Z.eq_dec b 0) as [->|]; [simpl; lia|apply Z.log2_lt_pow2; lia].
Qed.

Lemma xor_fold_range (x : Z) :
  0 ≤ x < 2 ^ 32 → 0 ≤ Z.lxor (Z.shiftr x 30) (Z.land x MASK_30) < 2 ^ 30.
Proof.
  intros Hx. apply lxor_below_2_30.
  - rewrite Z.shiftr_div_pow2 by lia. split.
    + apply Z.div_pos; lia.
    + apply Z.div_lt_upper_bound; lia.
  - change MASK_30 with (Z.ones 30). rewrite Z.land_ones by lia.
    apply Z.mod_pos_bound. lia.
Qed.

Lemma snat_fold_range (crc : Z) : 32768 ≤ snat_fold crc ≤ MASK_30 + 32767.
Proof.
  unfold snat_fold.
  pose proof (xor_fold_range _ (land_mask32_range crc)) as Hfold.
  destruct (Z.ltb_spec (Z.lxor (Z.shiftr (Z.land crc 0xffffffff) 30)
                          (Z.land (Z.land crc 0xffffffff) MASK_30)) 32768);
    unfold MASK_30 in *; lia.
Qed.

Lemma network_version (addr : string) (p : option string) (net : netaddr.IPNetwork) :
  netaddr.network addr p = Some net →
  netaddr.version net = 4 ∨ netaddr.version net = 6.
Proof.
  unfold netaddr.network.
  destruct (netaddr.ipv4 addr).
  - destruct (netaddr.prefix 32 p); simpl; [|discriminate]. intros [= <-]. by left.
  - destruct (netaddr.ipv6 addr); [|discriminate].
    destruct (netaddr.prefix 128 p); simpl; [|discriminate]. intros [= <-]. by right.
Qed.

Lemma parse_version (text : string) (net : netaddr.IPNetwork) :
  netaddr.parse text = Some net →
  netaddr.version net = 4 ∨ netaddr.version net = 6.
Proof.
  unfold netaddr.parse.
  destruct (PyStr.split "/" text) as [|addr [|p [|? ?]]]; try discriminate;
    apply network_version.
Qed.

(** X1: for every IPv6 CIDR the index lies in [32768, 2^30 + 32766]: it is
    above the system-generated entries and far below 32 bits, whatever the
    checksum of the text is. *)
Theorem get_snat_idx_ipv6_range (ip_cidr : string) (net : netaddr.IPNetwork) :
  netaddr.parse ip_cidr = Some net →
  netaddr.version net = 6 →
  ∃ idx, _get_snat_idx ip_cidr = Some idx ∧ 32768 ≤ idx ≤ 2 ^ 30 + 32766.
Proof.
  intros Hparse Hv6. unfold _get_snat_idx. rewrite Hparse, Hv6. simpl.
  eexists. split; [reflexivity|].
  pose proof (snat_fold_range (binascii.crc32 ip_cidr)). unfold MASK_30 in *. lia.
Qed.

Lemma get_snat_idx_ipv6_range_witness :
  ∃ idx, _get_snat_idx "2001:db8::/64" = Some idx ∧ 32768 ≤ idx ≤ 2 ^ 30 + 32766.
Proof.
  apply (get_snat_idx_ipv6_range "2001:db8::/64"
           (netaddr.mkIPNetwork 6 42540766411282592856903984951653826560 64)).
  - vm_compute. reflexivity.
  - reflexivity.
Defined.

(** X2: whenever [_get_snat_idx] returns, for an IPv4 or an IPv6 CIDR, the
    index is a non-negative integer of 32 bits or less, as a routing-table
    id and a rule priority have to be. *)
Theorem get_snat_idx_fits_32_bits (ip_cidr : string) (idx : Z) :
  _get_snat_idx ip_cidr = Some idx → 0 ≤ idx < 2 ^ 32.
Proof.
  unfold _get_snat_idx.
  destruct (netaddr.parse ip_cidr) as [net|] eqn:Hparse; [|discriminate].
  destruct (parse_version _ _ Hparse) as [Hv|Hv]; rewrite Hv; simpl; intros [= <-].
  - by apply (parse_ipv4_value ip_cidr).
  - pose proof (snat_fold_range (binascii.crc32 ip_cidr)). unfold MASK_30 in *. lia.
Qed.

Lemma get_snat_idx_fits_32_bits_witness : 0 ≤ 4294967295 < 2 ^ 32.
Proof.
  apply (get_snat_idx_fits_32_bits "255.255.255.255/32" 4294967295).
  vm_compute. reflexivity.
Defined.

(** ** SNAT device and namespace names *)

Lemma take_length (n : nat) (s : string) : (String.length (PyStr.take n s) ≤ n)%nat.
Proof.
  revert s. induction n as [|n IH]; intros [|c s]; simpl; try lia.
  specialize (IH s). lia.
Qed.

Lemma take_all (n : nat) (s : string) :
  (String.length s ≤ n)%nat → PyStr.take n s = s.
Proof.
  revert s. induction n as [|n IH]; intros [|c s]; simpl; intros Hl; try done; try lia.
  f_equal. apply IH. lia.
Qed.

Lemma take_succ_cons (n : nat) (c : ascii) (s : string) :
  PyStr.take (S n) (String c s) = String c (PyStr.take n s).
Proof. reflexivity. Qed.

(** X3: with a device-name limit of at least three characters, the SNAT
    device name is at most that long, starts with [sg-] and continues with
    the first [DEV_NAME_LEN - 3] characters of the port id: a port id that
    fits is kept whole, and two port ids that agree on these characters get
    the same device name. *)
Theorem snat_int_device_name_shape (DEV_NAME_LEN : nat) (port_id other : string) :
  (3 ≤ DEV_NAME_LEN)%nat →
  let name := get_snat_int_device_name DEV_NAME_LEN port_id in
  (String.length name ≤ DEV_NAME_LEN)%nat
  ∧ startswith SNAT_INT_DEV_PREFIX name = true
  ∧ name = SNAT_INT_DEV_PREFIX +:+ PyStr.take (DEV_NAME_LEN - 3) port_id
  ∧ ((String.length port_id ≤ DEV_NAME_LEN - 3)%nat →
     name = SNAT_INT_DEV_PREFIX +:+ port_id)
  ∧ (PyStr.take (DEV_NAME_LEN - 3) port_id = PyStr.take (DEV_NAME_LEN - 3) other →
     get_snat_int_device_name DEV_NAME_LEN other = name).
Proof.
  intros Hlen name. subst name. unfold get_snat_int_device_name.
  split; [apply take_length|].
  destruct DEV_NAME_LEN as [|[|[|n]]]; try lia.
  replace (S (S (S n)) - 3)%nat with n by lia.
  assert (Hshape : ∀ p, PyStr.take (S (S (S n))) (SNAT_INT_DEV_PREFIX +:+ p)
                        = SNAT_INT_DEV_PREFIX +:+ PyStr.take n p) by reflexivity.
  rewrite Hshape. split; [reflexivity|]. split; [reflexivity|]. split.
  - intros Hfit. by rewrite take_all.
  - intros Heq. rewrite Hshape. by rewrite Heq.
Qed.

Lemma snat_int_device_name_shape_witness :
  get_snat_int_device_name 14 "0a1b2c3d-4e5f-6789-abcd-ef0123456789" = "sg-0a1b2c3d-4e"
  ∧ get_snat_int_device_name 14 "0a1b2c3d-4e00-0000-0000-000000000000" = "sg-0a1b2c3d-4e".
Proof.
  pose proof (snat_int_device_name_shape 14 "0a1b2c3d-4e5f-6789-abcd-ef0123456789"
                "0a1b2c3d-4e00-0000-0000-000000000000" ltac:(lia))
    as (_ & _ & Hname & _ & Hsame).
  split; [exact Hname | exact (Hsame eq_refl)].
Defined.

(** ** The router's port on a subnet *)

Lemma existsb_on_subnet (subnet : string) (port : Port) :
  existsb (λ f, bool_decide (subnet_id f = subnet)) (fixed_ips port) = true
  ↔ on_subnet subnet port.
Proof.
  rewrite existsb_exists. unfold on_subnet. split.
  - intros (f & Hin & Hf). exists f. split; [by apply list_elem_of_In|].
    by apply bool_decide_eq_true in Hf.
  - intros (f & Hin & Hf). exists f. split; [by apply list_elem_of_In|].
    by apply bool_decide_eq_true.
Qed.

(** X4: [get_internal_port] returns the first router port that has a fixed
    IP, at any position, on the subnet: no port before it has one; it
    returns [None] exactly when no router port has one. *)
Theorem get_internal_port_first_match (ri : RouterInfo) (subnet : string) :
  match get_internal_port ri subnet with
  | Some port =>
      ∃ before after,
        _interfaces (router ri) = before ++ port :: after
        ∧ on_subnet subnet port
        ∧ ∀ p, p ∈ before → ¬ on_subnet subnet p
  | None => ∀ p, p ∈ _interfaces (router ri) → ¬ on_subnet subnet p
  end.
Proof.
  unfold get_internal_port.
  induction (_interfaces (router ri)) as [|p ps IH]; simpl.
  - intros p Hp. by apply elem_of_nil in Hp.
  - destruct (existsb _ (fixed_ips p)) eqn:Hp.
    + exists [], ps. split; [reflexivity|]. split; [by apply existsb_on_subnet|].
      intros q Hq. by apply elem_of_nil in Hq.
    + assert (Hnot : ¬ on_subnet subnet p).
      { intros Hon. apply existsb_on_subnet in Hon. congruence. }
      destruct (find _ ps) as [port|].
      * destruct IH as (before & after & -> & Hon & Hbefore).
        exists (p :: before), after. split; [reflexivity|]. split; [exact Hon|].
        intros q Hq. apply elem_of_cons in Hq as [->|Hq]; [exact Hnot|by apply Hbefore].
      * intros q Hq. apply elem_of_cons in Hq as [->|Hq]; [exact Hnot|by apply IH].
Qed.

(** ** Matching SNAT ports *)

Lemma match_ports_filter (subnet : string) (snat_ports ps : list Port) :
  match_ports subnet snat_ports = Some ps →
  ps = List.filter (first_on subnet) snat_ports
  ∧ Forall (λ p, fixed_ips p ≠ []) snat_ports.
Proof.
  revert ps. induction snat_ports as [|p l IH]; simpl; intros ps.
  - intros [= <-]. split; [reflexivity|constructor].
  - unfold first_on at 1. destruct (fixed_ips p) as [|f fs] eqn:Hf; [discriminate|].
    destruct (match_ports subnet l) as [ps'|]; [|discriminate].
    intros [= <-]. destruct (IH ps' eq_refl) as [-> Hall].
    split; [reflexivity|]. constructor; [congruence|exact Hall].
Qed.

Lemma match_ports_none (subnet : string) (snat_ports : list Port) :
  match_ports subnet snat_ports = None → ∃ p, p ∈ snat_ports ∧ fixed_ips p = [].
Proof.
  induction snat_ports as [|p l IH]; simpl; [discriminate|].
  destruct (fixed_ips p) as [|f fs] eqn:Hf.
  - intros _. exists p. split; [left|exact Hf].
  - destruct (match_ports subnet l); [discriminate|].
    intros _. destruct (IH eq_refl) as (q & Hq & Hempty).
    exists q. split; [by right|exact Hempty].
Qed.

Lemma filter_first {A} (f : A → bool) (l : list A) (x : A) (rest : list A) :
  List.filter f l = x :: rest →
  ∃ before after, l = before ++ x :: after ∧ f x = true
                  ∧ Forall (λ y, f y = false) before.
Proof.
  induction l as [|y l IH]; simpl; [discriminate|].
  destruct (f y) eqn:Hy.
  - intros [= -> _]. exists [], l. split; [reflexivity|]. split; [exact Hy|constructor].
  - intros Hfl. destruct (IH Hfl) as (before & after & -> & Hx & Hbefore).
    exists (y :: before), after. split; [reflexivity|]. split; [exact Hx|].
    by constructor.
Qed.

Lemma filter_nil_all {A} (f : A → bool) (l : list A) :
  List.filter f l = [] → Forall (λ y, f y = false) l.
Proof.
  induction l as [|y l IH]; simpl; [constructor|].
  destruct (f y) eqn:Hy; [discriminate|]. intros Hfl. constructor; auto.
Qed.

(** X5: [_map_internal_interfaces] compares first fixed IPs only.  It
    ends in [IndexError] exactly when the internal port, or any SNAT port
    at all, matching or not, has no fixed IP; the world is then as it was.
    Otherwise every SNAT port has a fixed IP and it returns the first SNAT
    port whose first fixed IP is on the subnet of the internal port's first
    fixed IP, leaving the world as it is; with no such port it logs an
    error and returns [None]. *)
Theorem map_internal_interfaces_first_fixed_ip (int_port : Port)
    (snat_ports : list Port) (w : World) :
  let r := _map_internal_interfaces int_port snat_ports w in
  (r.1 = map_IndexError
   ↔ fixed_ips int_port = [] ∨ ∃ p, p ∈ snat_ports ∧ fixed_ips p = [])
  ∧ match r with
    | (map_returns (Some port), w') =>
        w' = w
        ∧ Forall (λ p, fixed_ips p ≠ []) snat_ports
        ∧ ∃ f before after,
            head (fixed_ips int_port) = Some f
            ∧ snat_ports = before ++ port :: after
            ∧ first_on (subnet_id f) port = true
            ∧ Forall (λ p, first_on (subnet_id f) p = false) before
    | (map_returns None, w') =>
        w' = record (LOG error "DVR: no map match_port found!" []) w
        ∧ Forall (λ p, fixed_ips p ≠ []) snat_ports
        ∧ ∃ f, head (fixed_ips int_port) = Some f
               ∧ Forall (λ p, first_on (subnet_id f) p = false) snat_ports
    | (map_IndexError, w') =>
        w' = w
        ∧ (fixed_ips int_port = [] ∨ ∃ p, p ∈ snat_ports ∧ fixed_ips p = [])
    end.
Proof.
  cbn zeta. unfold _map_internal_interfaces.
  destruct (fixed_ips int_port) as [|f fs] eqn:Hf.
  { split; [split; [by left|done]|]. split; [done|by left]. }
  destruct (match_ports (subnet_id f) snat_ports) as [[|port ps]|] eqn:Hm.
  - apply match_ports_filter in Hm as [Hm Hall]. split.
    + split; [done|]. intros [|(p & Hp & Hempty)]; [done|].
      rewrite Forall_forall in Hall. by destruct (Hall p Hp).
    + split; [done|]. split; [exact Hall|].
      exists f. split; [done|]. by apply filter_nil_all.
  - apply match_ports_filter in Hm as [Hm Hall]. split.
    + split; [done|]. intros [|(p & Hp & Hempty)]; [done|].
      rewrite Forall_forall in Hall. by destruct (Hall p Hp).
    + split; [done|]. split; [exact Hall|].
      symmetry in Hm. apply filter_first in Hm as (before & after & -> & Hp & Hb).
      by exists f, before, after.
  - apply match_ports_none in Hm. split; [split; [by right|done]|].
    split; [done|by right].
Qed.

(** A SNAT port without fixed IP ends the search in [IndexError] even
    though the port before it matches; without it the match is returned. *)
Example map_internal_interfaces_late_empty_port :
  (_map_internal_interfaces example_sn_port example_snat_ports empty_world).1
  = map_IndexError
  ∧ (_map_internal_interfaces example_sn_port [example_sn_port] empty_world).1
    = map_returns (Some example_sn_port).
Proof. split; reflexivity. Qed.

(** ** Tearing down the SNAT namespace *)

Section DestroySnat.
Variable fails : NamespaceCall → bool.
Variable ns : string.

Lemma unplug_loop_cons (d : string) (ds : list string) (t : list NamespaceCall) :
  unplug_loop fails ns (d :: ds) t =
    if startswith SNAT_INT_DEV_PREFIX d then
      let t1 := (t ++ [LOG_debug "Unplugging DVR device %s" [d]])
                ++ [driver_unplug d ns SNAT_INT_DEV_PREFIX] in
      if fails (driver_unplug d ns SNAT_INT_DEV_PREFIX)
      then (Raises PrimitiveError, t1)
      else unplug_loop fails ns ds t1
    else unplug_loop fails ns ds t.
Proof.
  unfold unplug_loop. cbn [for_each].
  destruct (startswith SNAT_INT_DEV_PREFIX d); [|reflexivity].
  unfold mbind, Py_bind, ns_log, ns_call, modify.
  destruct (fails (driver_unplug d ns SNAT_INT_DEV_PREFIX)); reflexivity.
Qed.

Lemma unplug_loop_ok (devices : list string) (t : list NamespaceCall) :
  Forall (λ d, fails (driver_unplug d ns SNAT_INT_DEV_PREFIX) = false) devices →
  ∃ t', unplug_loop fails ns devices t = (Returns tt, t ++ t')
        ∧ unplugged t' = List.filter (startswith SNAT_INT_DEV_PREFIX) devices
        ∧ Forall (λ c, is_delete_namespace c = false) t'.
Proof.
  revert t. induction devices as [|d ds IH]; intros t Hok.
  - exists []. rewrite app_nil_r. repeat split; constructor.
  - apply Forall_cons in Hok as [Hd Hds].
    rewrite unplug_loop_cons. cbn [List.filter].
    destruct (startswith SNAT_INT_DEV_PREFIX d) eqn:Hsw.
    + cbn zeta. rewrite Hd.
      destruct (IH ((t ++ [LOG_debug "Unplugging DVR device %s" [d]]) ++
                    [driver_unplug d ns SNAT_INT_DEV_PREFIX]) Hds) as (t' & -> & Hu & Hnd).
      exists (LOG_debug "Unplugging DVR device %s" [d]
              :: driver_unplug d ns SNAT_INT_DEV_PREFIX :: t').
      split; [by rewrite <- !app_assoc|]. split; [rewrite <- Hu; reflexivity|].
      by repeat constructor.
    + destruct (IH t Hds) as (t' & -> & Hu & Hnd). by exists t'.
Qed.

Lemma unplug_loop_fails (before after : list string) (d : string)
    (t : list NamespaceCall) :
  Forall (λ d, fails (driver_unplug d ns SNAT_INT_DEV_PREFIX) = false) before →
  startswith SNAT_INT_DEV_PREFIX d = true →
  fails (driver_unplug d ns SNAT_INT_DEV_PREFIX) = true →
  ∃ t', unplug_loop fails ns (before ++ d :: after) t = (Raises PrimitiveError, t ++ t')
        ∧ unplugged t' = List.filter (startswith SNAT_INT_DEV_PREFIX) before ++ [d]
        ∧ Forall (λ c, is_delete_namespace c = false) t'.
Proof.
  revert t. induction before as [|b bs IH]; intros t Hok Hsw Hfail.
  - cbn [app]. rewrite unplug_loop_cons, Hsw. cbn zeta. rewrite Hfail.
    exists [LOG_debug "Unplugging DVR device %s" [d];
            driver_unplug d ns SNAT_INT_DEV_PREFIX].
    split; [by rewrite <- !app_assoc|]. split; [reflexivity|by repeat constructor].
  - apply Forall_cons in Hok as [Hb Hbs].
    cbn [app]. rewrite unplug_loop_cons. cbn [List.filter].
    destruct (startswith SNAT_INT_DEV_PREFIX b) eqn:Hswb.
    + cbn zeta. rewrite Hb.
      destruct (IH ((t ++ [LOG_debug "Unplugging DVR device %s" [b]]) ++
                    [driver_unplug b ns SNAT_INT_DEV_PREFIX]) Hbs Hsw Hfail)
        as (t' & -> & Hu & Hnd).
      exists (LOG_debug "Unplugging DVR device %s" [b]
              :: driver_unplug b ns SNAT_INT_DEV_PREFIX :: t').
      split; [by rewrite <- !app_assoc|]. split; [rewrite <- app_comm_cons, <- Hu; reflexivity|].
      by repeat constructor.
    + destruct (IH t Hbs Hsw Hfail) as (t' & -> & Hu & Hnd). by exists t'.
Qed.

Lemma destroy_snat_namespace_unfold (flag : bool) (devices : list string)
    (t : list NamespaceCall) :
  _destroy_snat_namespace fails flag devices ns t =
    match unplug_loop fails ns devices t with
    | (Returns _, t1) =>
        let t2 := t1 ++ [LOG_debug "DVR: destroy snat ns: %s" [ns]] in
        if flag then
          (if fails (delete_namespace ns) then Raises PrimitiveError else Returns tt,
           t2 ++ [delete_namespace ns])
        else (Returns tt, t2)
    | (Raises e, t1) => (Raises e, t1)
    end.
Proof.
  unfold _destroy_snat_namespace, unplug_loop.
  unfold mbind at 1. unfold Py_bind.
  destruct (for_each devices _ t) as [[[]|e] t1]; [|reflexivity].
  unfold mbind, Py_bind, ns_log, modify. destruct flag; reflexivity.
Qed.

Lemma unplugged_app (t1 t2 : list NamespaceCall) :
  unplugged (t1 ++ t2) = unplugged t1 ++ unplugged t2.
Proof. unfold unplugged. apply omap_app. Qed.

Lemma unplugged_elem (d : string) (t : list NamespaceCall) :
  d ∈ unplugged t → ∃ n p, driver_unplug d n p ∈ t.
Proof.
  unfold unplugged. intros Hd. apply list_elem_of_omap in Hd as (c & Hc & Hm).
  destruct c; try discriminate. injection Hm as ->. eauto.
Qed.

Lemma not_delete_not_in (t : list NamespaceCall) (n : string) :
  Forall (λ c, is_delete_namespace c = false) t → delete_namespace n ∉ t.
Proof.
  intros Hall Hin. rewrite Forall_forall in Hall. by specialize (Hall _ Hin).
Qed.

Lemma filter_sg_elem (d : string) (devices : list string) :
  d ∈ devices → startswith SNAT_INT_DEV_PREFIX d = true →
  d ∈ List.filter (startswith SNAT_INT_DEV_PREFIX) devices.
Proof.
  intros Hd Hsw. apply list_elem_of_In, filter_In. split; [by apply list_elem_of_In|done].
Qed.

End DestroySnat.

(** X6: when no call fails, [_destroy_snat_namespace] returns after having
    unplugged exactly the devices whose name starts with [sg-], in listing
    order; it deletes the namespace exactly when [router_delete_namespaces]
    is set.  Every listed device that carries a name made by
    [get_snat_int_device_name] is among the unplugged ones. *)
Theorem destroy_snat_namespace_unplugs_sg_devices (fails : NamespaceCall → bool)
    (ns : string) (router_delete_namespaces : bool) (devices : list string) :
  (∀ c, fails c = false) →
  ∃ t, _destroy_snat_namespace fails router_delete_namespaces devices ns []
       = (Returns tt, t)
       ∧ unplugged t = List.filter (startswith SNAT_INT_DEV_PREFIX) devices
       ∧ (delete_namespace ns ∈ t ↔ router_delete_namespaces = true)
       ∧ (∀ DEV_NAME_LEN port_id,
            (3 ≤ DEV_NAME_LEN)%nat →
            get_snat_int_device_name DEV_NAME_LEN port_id ∈ devices →
            get_snat_int_device_name DEV_NAME_LEN port_id ∈ unplugged t).
Proof.
  intros Hok. rewrite destroy_snat_namespace_unfold.
  destruct (unplug_loop_ok fails ns devices []) as (t' & -> & Hu & Hnd).
  { apply Forall_forall. intros d _. apply Hok. }
  cbn [app]. cbn zeta. rewrite Hok.
  assert (Hnames : ∀ t'', unplugged t'' = unplugged t' →
            ∀ DEV_NAME_LEN port_id, (3 ≤ DEV_NAME_LEN)%nat →
            get_snat_int_device_name DEV_NAME_LEN port_id ∈ devices →
            get_snat_int_device_name DEV_NAME_LEN port_id ∈ unplugged t'').
  { intros t'' -> n p Hn Hin. rewrite Hu. apply filter_sg_elem; [exact Hin|].
    unfold get_snat_int_device_name. destruct n as [|[|[|n]]]; try lia. reflexivity. }
  destruct router_delete_namespaces.
  - exists ((t' ++ [LOG_debug "DVR: destroy snat ns: %s" [ns]]) ++ [delete_namespace ns]).
    assert (Hsame : unplugged ((t' ++ [LOG_debug "DVR: destroy snat ns: %s" [ns]])
                               ++ [delete_namespace ns]) = unplugged t').
    { rewrite !unplugged_app. cbn. by rewrite !app_nil_r. }
    split; [reflexivity|]. split; [by rewrite Hsame|]. split.
    + split; [done|]. intros _. apply elem_of_app. right. left.
    + by apply Hnames.
  - exists (t' ++ [LOG_debug "DVR: destroy snat ns: %s" [ns]]).
    assert (Hsame : unplugged (t' ++ [LOG_debug "DVR: destroy snat ns: %s" [ns]])
                    = unplugged t').
    { rewrite !unplugged_app. cbn. by rewrite !app_nil_r. }
    split; [reflexivity|]. split; [by rewrite Hsame|]. split.
    + split; [|done]. intros Hin. apply elem_of_app in Hin as [Hin|Hin].
      * by apply not_delete_not_in in Hin.
      * apply list_elem_of_singleton in Hin. discriminate.
    + by apply Hnames.
Qed.

(** X7: when the unplug of an [sg-] device fails, [_destroy_snat_namespace]
    raises at once: the devices listed after it stay plugged and the
    namespace is not deleted, whatever [router_delete_namespaces] says. *)
Theorem destroy_snat_namespace_unplug_failure (fails : NamespaceCall → bool)
    (ns : string) (router_delete_namespaces : bool)
    (before after : list string) (d : string) :
  Forall (λ d, fails (driver_unplug d ns SNAT_INT_DEV_PREFIX) = false) before →
  startswith SNAT_INT_DEV_PREFIX d = true →
  fails (driver_unplug d ns SNAT_INT_DEV_PREFIX) = true →
  ∃ t, _destroy_snat_namespace fails router_delete_namespaces (before ++ d :: after)
         ns [] = (Raises PrimitiveError, t)
       ∧ unplugged t = List.filter (startswith SNAT_INT_DEV_PREFIX) before ++ [d]
       ∧ delete_namespace ns ∉ t.
Proof.
  intros Hok Hsw Hfail. rewrite destroy_snat_namespace_unfold.
  destruct (unplug_loop_fails fails ns before after d [] Hok Hsw Hfail)
    as (t' & -> & Hu & Hnd).
  exists t'. split; [reflexivity|]. split; [exact Hu|]. by apply not_delete_not_in.
Qed.

(** ** Invariants of the FIP-namespace table *)

Lemma preserves_bind {S A B} (P : S → Prop) (m : Py S A) (k : A → Py S B) :
  preserves P m → (∀ a, preserves P (k a)) → preserves P (m ≫= k).
Proof.
  intros Hm Hk s Hs. unfold mbind, Py_bind.
  specialize (Hm s Hs). destruct (m s) as [[a|e] s']; [by apply Hk|exact Hm].
Qed.

Lemma preserves_ret {S A} (P : S → Prop) (a : A) : preserves P (mret a).
Proof. by intros s Hs. Qed.

Lemma preserves_raise {S A} (P : S → Prop) (e : Exception) : preserves P (@raise S A e).
Proof. by intros s Hs. Qed.

Lemma preserves_get {S} (P : S → Prop) : preserves P get.
Proof. by intros s Hs. Qed.

Lemma preserves_in_world {A} (P : World → Prop) (m : Py World A) :
  preserves P m → preserves (λ s : World * RouterInfo, P s.1) (in_world m).
Proof.
  intros Hm [w ri] Hs. unfold in_world. cbn [fst snd] in *.
  specialize (Hm w Hs). by destruct (m w).
Qed.

Lemma preserves_the_ri (P : World → Prop) :
  preserves (λ s : World * RouterInfo, P s.1) the_ri.
Proof. by intros s Hs. Qed.

Lemma preserves_set_ri (P : World → Prop) (f : RouterInfo → RouterInfo) :
  preserves (λ s : World * RouterInfo, P s.1) (set_ri f).
Proof. by intros s Hs. Qed.

Lemma preserves_get_pair (P : World → Prop) :
  preserves (λ s : World * RouterInfo, P s.1) get_pair.
Proof.
  unfold get_pair. apply preserves_bind; [apply preserves_the_ri|].
  intros ri. destruct (rtr_fip_subnet ri); [apply preserves_ret|apply preserves_raise].
Qed.

Section TableInvariant.
Context `{Environment}.

Lemma table_wf_record (e : Effect) (w : World) : table_wf w → table_wf (record e w).
Proof. by intros Hwf. Qed.

Lemma table_wf_store (w : World) (n : nat) (o o' : FipNamespace) :
  table_wf w → objects w !! n = Some o → _ext_net_id o' = _ext_net_id o →
  table_wf (set_objects (<[n:=o']>) w).
Proof.
  intros Hwf Hn Hext k h Hk. destruct (Hwf k h Hk) as (oh & Hoh & Hid).
  unfold set_objects. cbn [objects].
  destruct (decide (h = n)) as [->|Hne].
  - exists o'. split; [|congruence].
    apply list_lookup_insert_eq. by eapply lookup_lt_Some.
  - exists oh. split; [|exact Hid]. by rewrite list_lookup_insert_ne.
Qed.

Lemma table_wf_call (e : Effect) : preserves table_wf (call e).
Proof. intros w Hw. unfold call. by destruct (raises (trace w) e). Qed.

Lemma table_wf_log (l : LogLevel) (msg : string) (args : list string) :
  preserves table_wf (log l msg args).
Proof. by intros w Hw. Qed.

Lemma table_wf_deref (h : option nat) : preserves table_wf (deref h).
Proof. intros w Hw. unfold deref. destruct h as [n|]; [|done]. by destruct (objects w !! n). Qed.

Ltac method_wf :=
  intros w Hw; unfold deref, store, mbind, Py_bind, modify, raise, mret, Py_ret;
  match goal with
  | h : option nat |- _ =>
      destruct h as [n|]; [|exact Hw];
      destruct (objects w !! n) as [o|] eqn:Hn; [|exact Hw]
  end.

Lemma table_wf_get_name (h : option nat) : preserves table_wf (get_name h).
Proof. unfold get_name. method_wf. exact Hw. Qed.

Lemma table_wf_ext_device_name (h : option nat) : preserves table_wf (ext_device_name h).
Proof. unfold ext_device_name. method_wf. by destruct (agent_gateway_port o). Qed.

Lemma table_wf_allocate (h : option nat) : preserves table_wf (allocate_rule_priority h).
Proof.
  unfold allocate_rule_priority. method_wf.
  destruct (_rule_priorities o); [exact Hw|]. cbn [fst snd].
  by eapply table_wf_store.
Qed.

Lemma table_wf_deallocate (h : option nat) (p : Z) :
  preserves table_wf (deallocate_rule_priority h p).
Proof. unfold deallocate_rule_priority. method_wf. by eapply table_wf_store. Qed.

Lemma table_wf_release (h : option nat) (rid : string) :
  preserves table_wf (local_subnets_release h rid).
Proof. unfold local_subnets_release. method_wf. by eapply table_wf_store. Qed.

Lemma table_wf_unsubscribe (h : option nat) (rid : string) :
  preserves table_wf (unsubscribe h rid).
Proof.
  unfold unsubscribe. method_wf. cbn [fst snd].
  apply table_wf_record. by eapply table_wf_store.
Qed.

Lemma table_wf_destroy (h : option nat) : preserves table_wf (destroy h).
Proof. unfold destroy. method_wf. by apply table_wf_call. Qed.

Lemma table_wf_agent_allocate (rid : string) :
  preserves table_wf (agent_local_subnets_allocate rid).
Proof.
  intros w Hw. unfold agent_local_subnets_allocate, mbind, Py_bind, get, modify, raise,
    mret, Py_ret.
  destruct (agent_local_subnets (self w)) as [a|]; [|exact Hw].
  destruct (allocate rid a) as [[lease a']|]; exact Hw.
Qed.

Lemma table_wf_get_fip_ns (x : PyValue) : preserves table_wf (get_fip_ns x).
Proof.
  intros w Hw. destruct (cache w !! str x) as [h|] eqn:Hc.
  - by rewrite (get_fip_ns_cached _ _ _ Hc).
  - rewrite (get_fip_ns_fresh _ _ Hc). cbn [snd].
    intros k h. unfold cache. cbn [self objects set_fip_namespaces _fip_namespaces].
    destruct (decide (k = str x)) as [->|Hne].
    + rewrite lookup_insert_eq. intros [= <-].
      exists (mkFipNamespace (str x) ∅ new_rule_priorities None new_local_subnets).
      split; [|reflexivity].
      rewrite lookup_app_r by lia. by rewrite Nat.sub_diag.
    + rewrite lookup_insert_ne by done. intros Hk.
      destruct (Hw k h Hk) as (o & Ho & Hid). exists o. split; [|exact Hid].
      by apply lookup_app_l_Some.
Qed.

Lemma table_wf_evict (k : string) (w : World) :
  table_wf w → table_wf (set_self (set_fip_namespaces (delete k)) w).
Proof.
  intros Hw k' h. unfold cache. cbn [self objects set_self set_fip_namespaces _fip_namespaces].
  intros Hk. apply lookup_delete_Some in Hk as [_ Hk]. by apply Hw.
Qed.

Lemma table_wf_destroy_fip_namespace (ns : string) :
  preserves table_wf (_destroy_fip_namespace ns).
Proof.
  unfold _destroy_fip_namespace.
  apply preserves_bind; [apply table_wf_get_fip_ns|]. intros h.
  apply preserves_bind; [apply preserves_get|]. intros w'.
  apply preserves_bind; [|intros; apply table_wf_destroy].
  case_bool_decide; [|apply preserves_raise].
  intros w Hw. by apply table_wf_evict.
Qed.

Lemma table_wf_added (fip : Fip) (fip_cidr : string) :
  preserves (λ s : World * RouterInfo, table_wf s.1) (floating_ip_added_dist fip fip_cidr).
Proof.
  unfold floating_ip_added_dist.
  repeat first
    [ apply preserves_ret | apply preserves_the_ri | apply preserves_set_ri
    | apply preserves_get_pair
    | apply preserves_in_world;
      first [ apply table_wf_allocate | apply table_wf_deref | apply table_wf_call
            | apply table_wf_get_name | apply table_wf_ext_device_name ]
    | apply preserves_bind; [|intros ?] ].
Qed.

Lemma table_wf_removed (fip_cidr : string) :
  preserves (λ s : World * RouterInfo, table_wf s.1) (floating_ip_removed_dist fip_cidr).
Proof.
  unfold floating_ip_removed_dist.
  repeat first
    [ apply preserves_ret | apply preserves_the_ri | apply preserves_set_ri
    | apply preserves_get_pair
    | apply preserves_in_world;
      first [ apply table_wf_deref | apply table_wf_call | apply table_wf_get_name
            | apply table_wf_deallocate | apply table_wf_release
            | apply table_wf_unsubscribe | apply table_wf_agent_allocate
            | apply table_wf_destroy_fip_namespace ]
    | match goal with
      | |- preserves _ (match ?x with _ => _ end) => destruct x
      end
    | apply preserves_bind; [|intros ?] ].
Qed.

(** X8: that every entry of [_fip_namespaces] names a live object which is
    the namespace of the entry's network is an invariant of [get_fip_ns],
    [_destroy_fip_namespace], [floating_ip_added_dist] and
    [floating_ip_removed_dist], whether they return or raise. *)
Theorem fip_table_stays_well_formed (w : World) (ri : RouterInfo) :
  table_wf w →
  (∀ x, table_wf (get_fip_ns x w).2)
  ∧ (∀ ns, table_wf (_destroy_fip_namespace ns w).2)
  ∧ (∀ fip fip_cidr, table_wf (floating_ip_added_dist fip fip_cidr (w, ri)).2.1)
  ∧ (∀ fip_cidr, table_wf (floating_ip_removed_dist fip_cidr (w, ri)).2.1).
Proof.
  intros Hw. split; [|split; [|split]].
  - intros x. by apply table_wf_get_fip_ns.
  - intros ns. by apply table_wf_destroy_fip_namespace.
  - intros fip cidr. by apply (table_wf_added fip cidr (w, ri)).
  - intros cidr. by apply (table_wf_removed cidr (w, ri)).
Qed.

End TableInvariant.

Section DestroyFip.
Context `{Environment}.

(** What [_destroy_fip_namespace] does, step by step. *)
Lemma destroy_fip_namespace_run (ns : string) (w : World) :
  table_wf w →
  let k := PyStr.drop (String.length FIP_NS_PREFIX) ns in
  let h := match cache w !! k with Some h' => h' | None => length (objects w) end in
  let os := if cache w !! k is Some _ then objects w
            else objects w ++ [mkFipNamespace k ∅ new_rule_priorities None
                                 new_local_subnets] in
  _destroy_fip_namespace ns w
  = (if raises (trace w) (fip_ns_destroy h) then Raises PrimitiveError else Returns tt,
     mkWorld (set_fip_namespaces (delete k) (self w)) os
       (trace w ++ [fip_ns_destroy h])).
Proof.
  intros Hwf k h os. unfold _destroy_fip_namespace. fold k.
  destruct (cache w !! k) as [h'|] eqn:Hc; subst h os.
  - destruct (Hwf k h' Hc) as (o & Ho & _).
    unfold mbind at 1. unfold Py_bind.
    rewrite (get_fip_ns_cached (PyString k) w h' Hc).
    py_run. rewrite bool_decide_eq_true_2 by (apply elem_of_dom; eexists; exact Hc).
    unfold destroy. py_run. rewrite Ho. py_run.
    destruct (raises (trace w) (fip_ns_destroy h')); reflexivity.
  - unfold mbind at 1. unfold Py_bind.
    rewrite (get_fip_ns_fresh (PyString k) w Hc).
    py_run. cbn [set_fip_namespaces _fip_namespaces].
    rewrite bool_decide_eq_true_2 by (rewrite dom_insert_L; set_solver).
    unfold destroy. py_run.
    rewrite lookup_app_r by lia. rewrite Nat.sub_diag. cbn [lookup list_lookup]. py_run.
    unfold set_fip_namespaces. cbn [_fip_namespaces router_info fullsync agent_local_subnets].
    rewrite delete_insert_eq.
    destruct (raises (trace w) (fip_ns_destroy (length (objects w)))); reflexivity.
Qed.

(** X9: [_destroy_fip_namespace] never raises [KeyError].  It makes exactly
    one [destroy()] call and raises only if that call does; the table entry
    of the network is gone afterwards in either case, because it is deleted
    before the call.  For a network without an entry a namespace object is
    built just to be destroyed. *)
Theorem destroy_fip_namespace_evicts_before_destroying (ns : string) (w : World) :
  table_wf w →
  let k := PyStr.drop (String.length FIP_NS_PREFIX) ns in
  let r := _destroy_fip_namespace ns w in
  ∃ h,
    emitted w r.2 = [fip_ns_destroy h]
    ∧ r.1 = (if raises (trace w) (fip_ns_destroy h)
             then Raises PrimitiveError else Returns tt)
    ∧ cache r.2 = delete k (cache w)
    ∧ match cache w !! k with
      | Some h' => h = h' ∧ objects r.2 = objects w
      | None =>
          h = length (objects w)
          ∧ objects r.2 = objects w ++ [mkFipNamespace k ∅ new_rule_priorities None
                                          new_local_subnets]
      end.
Proof.
  intros Hwf k r. subst r. rewrite (destroy_fip_namespace_run ns w Hwf). fold k.
  exists (match cache w !! k with Some h' => h' | None => length (objects w) end).
  cbn [fst snd].
  split; [trace_done|]. split; [reflexivity|]. split; [reflexivity|].
  by destruct (cache w !! k).
Qed.

(** X10: after [_destroy_fip_namespace], [get_fip_ns] for the same network
    builds a new object: the handle it returns was not in the store before
    and differs from the handle that was destroyed. *)
Theorem get_fip_ns_after_destroy_is_new (ns : string) (w : World) :
  table_wf w →
  let k := PyStr.drop (String.length FIP_NS_PREFIX) ns in
  let w1 := (_destroy_fip_namespace ns w).2 in
  let r := get_fip_ns (PyString k) w1 in
  r.1 = Returns (length (objects w1))
  ∧ objects r.2 = objects w1 ++ [mkFipNamespace k ∅ new_rule_priorities None
                                   new_local_subnets]
  ∧ ∀ h, fip_ns_destroy h ∈ emitted w w1 → h ≠ length (objects w1).
Proof.
  intros Hwf k w1 r.
  assert (Hnone : cache w1 !! str (PyString k) = None) by apply destroy_evicts.
  subst r. rewrite (get_fip_ns_fresh _ _ Hnone). cbn [fst snd objects].
  split; [reflexivity|]. split; [reflexivity|].
  subst w1. rewrite (destroy_fip_namespace_run ns w Hwf). fold k. cbn [snd objects].
  erewrite emitted_app by trace_tail.
  intros h Hh. apply list_elem_of_singleton in Hh. injection Hh as ->.
  destruct (cache w !! k) as [h'|] eqn:Hc.
  - destruct (Hwf k h' Hc) as (o & Ho & _). apply lookup_lt_Some in Ho. lia.
  - rewrite length_app. cbn. lia.
Qed.

End DestroyFip.

Section FloatingIpRuns.
Context `{Environment}.

#[local] Set Warnings "-clear-no-such-hyp".

(** X11: with the namespace at hand, a free priority, a lease, a gateway
    port and no failing primitive, [floating_ip_added_dist] returns after
    exactly three calls, in this order: the policy rule for the fixed IP in
    the FIP table at the allocated priority, the route for the CIDR through
    the router end of the lease, and the gratuitous ARP for the floating
    address.  The table maps the floating address to that priority and the
    count is one higher. *)
Theorem floating_ip_added_dist_installs (fip : Fip) (fip_cidr : string) (w : World)
    (ri : RouterInfo) (h : nat) (o : FipNamespace) (lease : LinkLocalAddressPair)
    (gw : string) :
  fip_ns ri = Some h →
  objects w !! h = Some o →
  _rule_priorities o ≠ [] →
  rtr_fip_subnet ri = Some lease →
  agent_gateway_port o = Some gw →
  (∀ t e, raises t e = false) →
  let r := floating_ip_added_dist fip fip_cidr (w, ri) in
  let fip_ns_name := FIP_NS_PREFIX +:+ _ext_net_id o in
  ∃ rule_pr,
    rule_pr ∈ _rule_priorities o
    ∧ r.1 = Returns tt
    ∧ emitted w r.2.1
      = [IpRule_add (ns_name ri) (fixed_ip_address fip) FIP_RT_TBL rule_pr;
         route_add_route fip_ns_name (get_int_device_name (router_id ri)) fip_cidr
           (rtr_2_fip_ip lease);
         send_garp_for_proxyarp fip_ns_name (get_ext_device_name gw)
           (floating_ip_address fip)]
    ∧ floating_ips_dict r.2.2
      = <[floating_ip_address fip:=rule_pr]> (floating_ips_dict ri)
    ∧ dist_fip_count r.2.2 = dist_fip_count ri + 1
    ∧ self r.2.1 = self w.
Proof.
  intros Hns Hobj Hfree Hlease Hgw Hquiet. unfold floating_ip_added_dist.
  pose proof (lookup_lt_Some _ _ _ Hobj) as Hlen.
  destruct ri as [rid nsn rtr dict cnt ls fns]; simpl in Hns, Hlease; subst fns ls.
  destruct (_rule_priorities o) as [|rule_pr rest] eqn:Hprio; [done|].
  exists rule_pr. split; [left|].
  repeat (fip_unfold;
          rewrite ?Hobj, ?Hprio, ?Hquiet, ?Hgw;
          rewrite ?list_lookup_insert_eq by (rewrite ?length_insert; exact Hlen);
          cbn [_ext_net_id _subscribers _rule_priorities agent_gateway_port local_subnets]).
  cbn [fst snd self objects trace dist_fip_count floating_ips_dict].
  split; [done|]. split; [trace_done|]. done.
Qed.

(** X12: once a priority was allocated, a [floating_ip_added_dist] that
    raises (a failing primitive, a missing lease, a missing gateway port)
    leaves the router half updated: the policy rule was the first call
    made, the table holds the floating address with the allocated priority,
    and the count is not raised. *)
Theorem floating_ip_added_dist_failure_keeps_entry (fip : Fip) (fip_cidr : string)
    (w : World) (ri : RouterInfo) (h : nat) (o : FipNamespace) (e : Exception) :
  fip_ns ri = Some h →
  objects w !! h = Some o →
  _rule_priorities o ≠ [] →
  let r := floating_ip_added_dist fip fip_cidr (w, ri) in
  r.1 = Raises e →
  ∃ rule_pr,
    rule_pr ∈ _rule_priorities o
    ∧ head (emitted w r.2.1)
      = Some (IpRule_add (ns_name ri) (fixed_ip_address fip) FIP_RT_TBL rule_pr)
    ∧ floating_ips_dict r.2.2
      = <[floating_ip_address fip:=rule_pr]> (floating_ips_dict ri)
    ∧ dist_fip_count r.2.2 = dist_fip_count ri.
Proof.
  intros Hns Hobj Hfree. unfold floating_ip_added_dist.
  pose proof (lookup_lt_Some _ _ _ Hobj) as Hlen.
  destruct ri as [rid nsn rtr dict cnt ls fns]; simpl in Hns; subst fns.
  destruct (_rule_priorities o) as [|rule_pr rest] eqn:Hprio; [done|].
  cbn zeta. intros Hr. exists rule_pr. split; [left|]. revert Hr.
  repeat (fip_unfold;
          rewrite ?Hobj, ?Hprio;
          rewrite ?list_lookup_insert_eq by (rewrite ?length_insert; exact Hlen);
          cbn [_ext_net_id _subscribers _rule_priorities agent_gateway_port local_subnets];
          try fip_split_outer).
  all: cbn [fst snd self objects trace dist_fip_count floating_ips_dict].
  all: intros Hr; try discriminate.
  all: erewrite emitted_app by trace_tail; done.
Qed.


End FloatingIpRuns.

Section SnatRedirectFailures.
Context `{Environment}.

(** The calls attempted are a prefix of the calls. *)
Lemma attempted_prefix (calls : list Effect) (t : list Effect) :
  ∃ k, (k ≤ length calls)%nat ∧ (attempted t calls).1 = take k calls.
Proof.
  revert t. induction calls as [|e rest IH]; intros t; simpl.
  - exists 0%nat. done.
  - destruct (raises t e).
    + exists 1%nat. split; [lia|]. simpl. by rewrite ?take_0.
    + destruct (IH (t ++ [e])) as (k & Hk & Heq). exists (S k).
      split; [lia|]. simpl. by rewrite Heq.
Qed.

(** No call raised exactly when each call, made after the ones before it,
    does not raise. *)
Lemma attempted_all (calls : list Effect) (t : list Effect) :
  (attempted t calls).2 = false
  ↔ ∀ i e, calls !! i = Some e → raises (t ++ take i calls) e = false.
Proof.
  revert t. induction calls as [|e rest IH]; intros t; simpl.
  - split; [|done]. intros _ i e Hi. by rewrite lookup_nil in Hi.
  - destruct (raises t e) eqn:He; simpl.
    + split; [done|]. intros Hall. specialize (Hall 0%nat e eq_refl).
      rewrite take_0, app_nil_r in Hall. congruence.
    + rewrite IH. split.
      * intros Hall [|i] e' Hi; simpl in Hi.
        -- injection Hi as <-. by rewrite take_0, app_nil_r.
        -- simpl. rewrite cons_middle, app_assoc. by apply Hall.
      * intros Hall i e' Hi. specialize (Hall (S i) e' Hi).
        simpl in Hall. by rewrite cons_middle, app_assoc in Hall.
Qed.

(** When no call raised, all of them were made. *)
Lemma attempted_none_raised (calls : list Effect) (t : list Effect) :
  (attempted t calls).2 = false → (attempted t calls).1 = calls.
Proof.
  revert t. induction calls as [|e rest IH]; intros t; simpl; [done|].
  destruct (raises t e); simpl; [done|]. intros Hr. by rewrite IH.
Qed.

(** When a call raised, the calls attempted end with it: it is the first
    call that raises after the ones before it, and none after it is made. *)
Lemma attempted_raised (calls : list Effect) (t : list Effect) :
  (attempted t calls).2 = true →
  ∃ before e after,
    calls = before ++ e :: after
    ∧ (attempted t calls).1 = before ++ [e]
    ∧ raises (t ++ before) e = true
    ∧ ∀ i e', before !! i = Some e' → raises (t ++ take i before) e' = false.
Proof.
  revert t. induction calls as [|e rest IH]; intros t; simpl; [done|].
  destruct (raises t e) eqn:He; simpl.
  - intros _. exists [], e, rest. rewrite app_nil_r. repeat split; done.
  - intros Hr. destruct (IH _ Hr) as (before & e1 & after & -> & Hmade & Hraise & Hbefore).
    exists (e :: before), e1, after. rewrite Hmade. repeat split; try done.
    + by rewrite cons_middle, app_assoc.
    + intros [|i] e' Hi; simpl in Hi.
      * injection Hi as <-. by rewrite take_0, app_nil_r.
      * simpl. rewrite cons_middle, app_assoc. by apply Hbefore.
Qed.

(** X14: [_snat_redirect_add] and [_snat_redirect_remove] return on every
    input and under every behaviour of the primitives, and leave the agent
    as it is.  For a port without CIDR or a CIDR that does not parse they
    make no call and log the exception.  Otherwise they make their calls in
    order, each after the ones before it, up to and including the first one
    that raises, and no call after it; the exception log follows exactly
    when one raised.  So either all calls were made and nothing was logged,
    or the calls made are a prefix of them followed by the log. *)
Theorem snat_redirect_stops_at_first_failure (ri : RouterInfo) (gateway : string)
    (sn_port : Port) (sn_int : string) (w : World) :
  let a := _snat_redirect_add ri gateway sn_port sn_int w in
  let r := _snat_redirect_remove ri sn_port sn_int w in
  a.1 = Returns tt ∧ self a.2 = self w ∧ objects a.2 = objects w
  ∧ all_or_logged (snat_add_calls ri gateway sn_port sn_int) (emitted w a.2)
      "DVR: error adding redirection logic"
  ∧ emitted w a.2
    = guarded_run (trace w) (snat_port_valid sn_port)
        (snat_add_calls ri gateway sn_port sn_int) "DVR: error adding redirection logic"
  ∧ r.1 = Returns tt ∧ self r.2 = self w ∧ objects r.2 = objects w
  ∧ all_or_logged (snat_remove_calls ri sn_port sn_int) (emitted w r.2)
      "DVR: removed snat failed"
  ∧ emitted w r.2
    = guarded_run (trace w) (snat_port_valid sn_port)
        (snat_remove_calls ri sn_port sn_int) "DVR: removed snat failed".
Proof.
  unfold _snat_redirect_add, _snat_redirect_remove, port_ip_cidr, snat_idx_of,
    snat_add_calls, snat_remove_calls, all_or_logged, guarded_run, snat_port_valid.
  destruct (ip_cidr sn_port) as [cidr|]; py_run.
  2:{ repeat split; try done; try trace_done;
        right; exists 0%nat; (split; [done|trace_done]). }
  destruct (_get_snat_idx cidr) as [idx|]; py_run.
  2:{ repeat split; try done; try trace_done;
        right; exists 0%nat; (split; [done|trace_done]). }
  rewrite bool_decide_eq_true_2 by (by eexists).
  cbn [attempted fst snd].
  repeat (match goal with
          | |- context [raises ?t ?e] => destruct (raises t e) eqn:?
          end;
          py_run; cbn [fst snd app];
          repeat match goal with Hr : raises _ _ = _ |- _ => rewrite Hr end).
  all: repeat split; try done; try trace_done;
    first [ left; split; [done|trace_done]
          | right; exists 1%nat; split; [cbn; lia|trace_done]
          | right; exists 2%nat; split; [cbn; lia|trace_done]
          | right; exists 3%nat; split; [cbn; lia|trace_done] ].
Qed.

End SnatRedirectFailures.

(** With the rule addition failing, [_snat_redirect_add] makes the route
    and the rule call, never runs [sysctl], and logs; with nothing failing
    it makes all three calls and logs nothing. *)
Example snat_redirect_add_stops_at_failing_rule :
  emitted empty_world
    (@_snat_redirect_add rule_add_fails example_router "10.0.0.254" example_sn_port
       "qr-p1" empty_world).2
  = [route_add_gateway "qrouter-r1" "qr-p1" "10.0.0.254" 167772161;
     IpRule_add "qrouter-r1" "10.0.0.1/24" 167772161 167772161;
     LOG exception "DVR: error adding redirection logic" []]
  ∧ emitted empty_world
      (@_snat_redirect_add quiet example_router "10.0.0.254" example_sn_port
         "qr-p1" empty_world).2
    = [route_add_gateway "qrouter-r1" "qr-p1" "10.0.0.254" 167772161;
       IpRule_add "qrouter-r1" "10.0.0.1/24" 167772161 167772161;
       netns_execute "qrouter-r1"
         ["sysctl"; "-w"; "net.ipv4.conf.qr-p1.send_redirects=0"]].
Proof. split; reflexivity. Qed.

Section ArpCases.
Context `{Environment}.

(** X15: what [_update_arp_entry] does, case by case.  No router port on
    the subnet: nothing.  A port, but an IP that does not parse: no
    neighbour call, the failure logged, [fullsync] set.  Otherwise one
    [neigh.add] for ["add"], one [neigh.delete] for ["delete"], on the
    device of the first router port on the subnet and with the IP's
    version; any other operation is ignored without a trace. *)
Theorem update_arp_entry_cases (ri : RouterInfo) (ip mac subnet operation : string)
    (w : World) :
  let r := _update_arp_entry ri ip mac subnet operation w in
  match get_internal_port ri subnet, netaddr.parse (ip +:+ "/32") with
  | None, _ => r = (Returns tt, w)
  | Some _, None =>
      r = (Returns tt,
           flag_fullsync (record (LOG exception "DVR: Failed updating arp entry" []) w))
  | Some port, Some net =>
      let dev := get_internal_device_name (id port) in
      primitives (emitted w r.2)
      = (if decide (operation = "add")
         then [neigh_add (ns_name ri) dev (netaddr.version net) ip mac]
         else if decide (operation = "delete")
         then [neigh_delete (ns_name ri) dev (netaddr.version net) ip mac]
         else [])
      ∧ (operation ≠ "add" → operation ≠ "delete" → r.2 = w)
      ∧ objects r.2 = objects w
      ∧ _fip_namespaces (self r.2) = _fip_namespaces (self w)
      ∧ router_info (self r.2) = router_info (self w)
  end.
Proof.
  unfold _update_arp_entry.
  destruct (get_internal_port ri subnet) as [port|]; [|reflexivity].
  destruct (netaddr.parse (ip +:+ "/32")) as [net|]; [|reflexivity].
  cbn zeta. py_run.
  destruct (decide (operation = "add")) as [->|Hadd].
  - rewrite bool_decide_eq_true_2 by done. py_run.
    match goal with |- context [raises ?t ?e] => destruct (raises t e) end; py_run;
      erewrite emitted_app by trace_tail; done.
  - rewrite bool_decide_eq_false_2 by done.
    destruct (decide (operation = "delete")) as [->|Hdel].
    + rewrite bool_decide_eq_true_2 by done. py_run.
      match goal with |- context [raises ?t ?e] => destruct (raises t e) end; py_run;
        erewrite emitted_app by trace_tail; done.
    + rewrite bool_decide_eq_false_2 by done. py_run. rewrite emitted_nil.
      by destruct w.
Qed.

End ArpCases.

Section SubnetArp.
Context `{Environment}.
Variable ri : RouterInfo.
Variable sid : string.
Variable port : Port.
Hypothesis Hport : get_internal_port ri sid = Some port.

Lemma arp_step_refl (w : World) : arp_step w w [].
Proof. unfold arp_step. by rewrite app_nil_r. Qed.

Lemma arp_step_trans (w1 w2 w3 : World) (es1 es2 : list Effect) :
  arp_step w1 w2 es1 → arp_step w2 w3 es2 → arp_step w1 w3 (es1 ++ es2).
Proof.
  intros (Ht1 & Ho1 & Hf1 & Hr1 & Hl1) (Ht2 & Ho2 & Hf2 & Hr2 & Hl2).
  unfold arp_step. rewrite Ht2, Ht1, app_assoc. repeat split; congruence.
Qed.

Lemma arp_add_once (ip mac : string) (w : World) :
  ∃ w' es,
    _update_arp_entry ri ip mac sid "add" w = (Returns tt, w')
    ∧ arp_step w w' es
    ∧ neighbour_calls es = seed_call ri port <$> List.filter valid_ip [(ip, mac)].
Proof.
  unfold _update_arp_entry. rewrite Hport. unfold valid_ip, seed_call, ip_version.
  cbn [List.filter fst snd].
  destruct (netaddr.parse (ip +:+ "/32")) as [net|] eqn:Hparse; py_run.
  - rewrite bool_decide_eq_true_2 by done. py_run.
    rewrite (bool_decide_eq_true_2 (is_Some (Some net))) by done.
    match goal with |- context [raises ?t ?e] => destruct (raises t e) end; py_run.
    + eexists _, _. split; [reflexivity|]. split.
      * unfold arp_step. cbn [trace objects self set_fullsync _fip_namespaces router_info
                               agent_local_subnets].
        rewrite <- app_assoc. repeat split; reflexivity.
      * cbn. by rewrite Hparse.
    + eexists _, _. split; [reflexivity|]. split.
      * unfold arp_step. cbn [trace objects self]. repeat split; reflexivity.
      * cbn. by rewrite Hparse.
  - rewrite (bool_decide_eq_false_2 (is_Some None)) by (by intros [? ?]).
    eexists _, _. split; [reflexivity|]. split.
    + unfold arp_step. cbn [trace objects self set_fullsync _fip_namespaces router_info
                              agent_local_subnets].
      repeat split; reflexivity.
    + reflexivity.
Qed.

Lemma neighbour_calls_app (es1 es2 : list Effect) :
  neighbour_calls (es1 ++ es2) = neighbour_calls es1 ++ neighbour_calls es2.
Proof. unfold neighbour_calls. apply List.filter_app. Qed.

Lemma arp_add_each (mac : string) (fs : list FixedIp) (w : World) :
  ∃ w' es,
    for_each fs (λ fixed_ip, _update_arp_entry ri (ip_address fixed_ip) mac sid "add") w
    = (Returns tt, w')
    ∧ arp_step w w' es
    ∧ neighbour_calls es
      = seed_call ri port <$> List.filter valid_ip ((λ f, (ip_address f, mac)) <$> fs).
Proof.
  revert w. induction fs as [|f fs IH]; intros w.
  - exists w, []. split; [reflexivity|]. split; [apply arp_step_refl|reflexivity].
  - cbn [for_each]. unfold mbind, Py_bind.
    destruct (arp_add_once (ip_address f) mac w) as (w1 & es1 & -> & Hs1 & Hn1).
    destruct (IH w1) as (w2 & es2 & -> & Hs2 & Hn2).
    exists w2, (es1 ++ es2). split; [reflexivity|].
    split; [by eapply arp_step_trans|].
    rewrite neighbour_calls_app, Hn1, Hn2, fmap_cons. cbn [List.filter].
    by destruct (valid_ip (ip_address f, mac)).
Qed.

Lemma arp_seed_ports (owners : list string) (ps : list PluginPort) (w : World) :
  ∃ w' es,
    for_each ps (λ p,
      if bool_decide (device_owner p ∉ owners) then
        for_each (plugin_fixed_ips p) (λ fixed_ip,
          _update_arp_entry ri (ip_address fixed_ip) (mac_address p) sid "add")
      else mret tt) w
    = (Returns tt, w')
    ∧ arp_step w w' es
    ∧ neighbour_calls es = seed_call ri port <$> List.filter valid_ip (arp_pairs owners ps).
Proof.
  revert w. induction ps as [|p ps IH]; intros w.
  - exists w, []. split; [reflexivity|]. split; [apply arp_step_refl|reflexivity].
  - cbn [for_each]. unfold arp_pairs. cbn [flat_map].
    fold (arp_pairs owners ps).
    destruct (bool_decide (device_owner p ∉ owners)).
    + unfold mbind, Py_bind.
      destruct (arp_add_each (mac_address p) (plugin_fixed_ips p) w)
        as (w1 & es1 & -> & Hs1 & Hn1).
      destruct (IH w1) as (w2 & es2 & -> & Hs2 & Hn2).
      exists w2, (es1 ++ es2). split; [reflexivity|].
      split; [by eapply arp_step_trans|].
      by rewrite neighbour_calls_app, Hn1, Hn2, List.filter_app, fmap_app.
    + destruct (IH w) as (w2 & es2 & Heq & Hs2 & Hn2).
      exists w2, es2. split; [exact Heq|]. by split.
Qed.

End SubnetArp.

Lemma bind_ret_l {S A B} (a : A) (k : A → Py S B) (s : S) : (mret a ≫= k) s = k a s.
Proof. reflexivity. Qed.

Section SubnetArpInfo.
Context `{Environment}.

(** X16: for a distributed router with a port on the subnet,
    [_set_subnet_arp_info] returns whatever the neighbour primitive does,
    and the neighbour calls it makes are exactly one [neigh.add], never a
    delete, per fixed IP of each port the plugin reports that is not owned
    by a router, in the plugin's order, IPs that do not parse left out. *)
Theorem set_subnet_arp_info_seeds_neighbours (owners : list string)
    (get_ports_by_subnet : string → option (list PluginPort))
    (ri : RouterInfo) (subnet : gmap string string) (sid : string)
    (subnet_ports : list PluginPort) (port : Port) (w : World) :
  subnet !! "id" = Some sid →
  distributed (router ri) = true →
  get_ports_by_subnet sid = Some subnet_ports →
  get_internal_port ri sid = Some port →
  let r := _set_subnet_arp_info owners get_ports_by_subnet ri (Some subnet) w in
  r.1 = Returns tt
  ∧ neighbour_calls (emitted w r.2)
    = seed_call ri port <$> List.filter valid_ip (arp_pairs owners subnet_ports)
  ∧ objects r.2 = objects w
  ∧ _fip_namespaces (self r.2) = _fip_namespaces (self w)
  ∧ router_info (self r.2) = router_info (self w).
Proof.
  intros Hid Hdist Hrpc Hport. unfold _set_subnet_arp_info.
  rewrite bool_decide_eq_false_2 by (intros Hnot; apply not_elem_of_dom in Hnot; congruence).
  rewrite Hdist. cbn [negb orb]. unfold getitem. rewrite Hid, bind_ret_l, Hrpc.
  destruct (arp_seed_ports ri sid port Hport owners subnet_ports w)
    as (w' & es & -> & (Ht & Ho & Hf & Hr & _) & Hn).
  cbn [fst snd]. split; [reflexivity|].
  rewrite (emitted_app _ _ _ Ht). by rewrite Hn.
Qed.

(** X17: the guards of [_set_subnet_arp_info]: a port without [subnet]
    key raises [KeyError]; a subnet without [id], or a router that is not
    distributed, ends the call with nothing done; a failing plugin RPC
    propagates with nothing done; and when the router has no port on the
    subnet, nothing is done for any of the reported ports. *)
Theorem set_subnet_arp_info_guards (owners : list string)
    (get_ports_by_subnet : string → option (list PluginPort))
    (ri : RouterInfo) (port_subnet : option (gmap string string)) (w : World) :
  let r := _set_subnet_arp_info owners get_ports_by_subnet ri port_subnet w in
  match port_subnet with
  | None => r = (Raises KeyError, w)
  | Some subnet =>
      match subnet !! "id" with
      | None => r = (Returns tt, w)
      | Some sid =>
          if distributed (router ri) then
            match get_ports_by_subnet sid with
            | None => r = (Raises PrimitiveError, w)
            | Some _ => get_internal_port ri sid = None → r = (Returns tt, w)
            end
          else r = (Returns tt, w)
      end
  end.
Proof.
  unfold _set_subnet_arp_info. destruct port_subnet as [subnet|]; [|reflexivity].
  destruct (subnet !! "id") as [sid|] eqn:Hid.
  2:{ rewrite bool_decide_eq_true_2 by (by apply not_elem_of_dom). reflexivity. }
  rewrite bool_decide_eq_false_2 by (intros Hnot; apply not_elem_of_dom in Hnot; congruence).
  destruct (distributed (router ri)); [|reflexivity].
  cbn [negb orb]. unfold getitem. rewrite Hid. cbn zeta. rewrite bind_ret_l.
  destruct (get_ports_by_subnet sid) as [ps|]; [|reflexivity].
  intros Hnone. clear Hid. revert w. induction ps as [|p ps IH]; intros w; [reflexivity|].
  cbn [for_each]. destruct (bool_decide (device_owner p ∉ owners)).
  - assert (Hinner : ∀ fs w,
              for_each fs (λ fixed_ip,
                _update_arp_entry ri (ip_address fixed_ip) (mac_address p) sid "add") w
              = (Returns tt, w)).
    { intros fs. induction fs as [|f fs IHf]; intros w0; [reflexivity|].
      cbn [for_each]. unfold mbind, Py_bind. unfold _update_arp_entry at 1.
      rewrite Hnone. unfold mret at 1. unfold Py_ret. apply IHf. }
    unfold mbind, Py_bind. rewrite Hinner. apply IH.
  - apply IH.
Qed.

End SubnetArpInfo.

Section Notifications.
Context `{Environment}.

Lemma handler_call_run (headers : gmap string string) (rid state : string)
    (w : World) :
  headers !! "X-Neutron-Router-Id" = Some rid →
  headers !! "X-Neutron-State" = Some state →
  let r := handler_call headers w in
  match router_info (self w) !! rid with
  | None =>
      r = (Raises KeyError,
           mkWorld (self w) (objects w) (trace w ++ notification_logs rid state))
  | Some ri =>
      let calls := notification_logs rid state ++ [proxy_log rid state] in
      r = (if raises (trace w ++ calls) (proxy_call ri state)
           then Raises PrimitiveError else Returns tt,
           mkWorld (self w) (objects w) (trace w ++ calls ++ [proxy_call ri state]))
  end.
Proof.
  intros Hrid Hstate. unfold handler_call, getitem. rewrite Hrid, bind_ret_l.
  rewrite Hstate, bind_ret_l. cbn zeta.
  unfold handler_enqueue, enqueue_state_change, _update_metadata_proxy,
    notification_logs, proxy_log, proxy_call.
  py_run. destruct (router_info (self w) !! rid) as [ri|]; py_run.
  - case_bool_decide; py_run; rewrite <- !app_assoc; cbn [app];
      match goal with |- context [raises ?t ?e] => destruct (raises t e) end;
      reflexivity.
  - rewrite <- !app_assoc. reflexivity.
Qed.

(** X18: a notification carrying both headers leaves the agent as it is
    and is logged twice before the router is looked up.  For a router in
    [router_info] the proxy log line and the one driver call follow, and
    the handler raises exactly when the driver call does; for a router that
    is not in [router_info] the handler raises [KeyError] after the two log
    lines, with no driver call. *)
Theorem handler_call_outcome (headers : gmap string string) (rid state : string)
    (w : World) :
  headers !! "X-Neutron-Router-Id" = Some rid →
  headers !! "X-Neutron-State" = Some state →
  let r := handler_call headers w in
  self r.2 = self w ∧ objects r.2 = objects w
  ∧ match router_info (self w) !! rid with
    | None =>
        r.1 = Raises KeyError
        ∧ emitted w r.2 = notification_logs rid state
    | Some ri =>
        let calls := notification_logs rid state ++ [proxy_log rid state] in
        emitted w r.2 = calls ++ [proxy_call ri state]
        ∧ r.1 = (if raises (trace w ++ calls) (proxy_call ri state)
                 then Raises PrimitiveError else Returns tt)
    end.
Proof.
  intros Hrid Hstate. pose proof (handler_call_run headers rid state w Hrid Hstate) as Hrun.
  cbn zeta in *. destruct (router_info (self w) !! rid) as [ri|]; rewrite Hrun;
    cbn [fst snd self objects]; (split; [done|]); (split; [done|]).
  - split; [|reflexivity]. apply emitted_app. reflexivity.
  - split; [reflexivity|]. apply emitted_app. reflexivity.
Qed.

(** X19: a notification that lacks the router-id header or the state
    header raises [KeyError] before anything is logged or called. *)
Theorem handler_call_missing_header (headers : gmap string string) (w : World) :
  headers !! "X-Neutron-Router-Id" = None ∨ headers !! "X-Neutron-State" = None →
  handler_call headers w = (Raises KeyError, w).
Proof.
  unfold handler_call, getitem. intros [Hrid|Hstate].
  - by rewrite Hrid.
  - destruct (headers !! "X-Neutron-Router-Id"); [|reflexivity].
    rewrite bind_ret_l. by rewrite Hstate.
Qed.

Lemma request_headers_lookup (note : string * string) :
  request_headers note !! "X-Neutron-Router-Id" = Some note.1
  ∧ request_headers note !! "X-Neutron-State" = Some note.2.
Proof.
  unfold request_headers. split.
  - apply lookup_insert_eq.
  - rewrite lookup_insert_ne by done. apply lookup_insert_eq.
Qed.

Lemma primitives_app (es1 es2 : list Effect) :
  primitives (es1 ++ es2) = primitives es1 ++ primitives es2.
Proof. unfold primitives. apply List.filter_app. Qed.

Lemma handler_call_managed (note : string * string) (ri : RouterInfo) (w : World) :
  router_info (self w) !! note.1 = Some ri →
  (∀ t e, raises t e = false) →
  ∃ es, handler_call (request_headers note) w
        = (Returns tt, mkWorld (self w) (objects w) (trace w ++ es))
        ∧ primitives es = [proxy_call ri note.2].
Proof.
  intros Hri Hquiet.
  destruct (request_headers_lookup note) as [Hrid Hstate].
  pose proof (handler_call_run (request_headers note) note.1 note.2 w Hrid Hstate) as Hrun.
  cbn zeta in Hrun. rewrite Hri in Hrun. cbv beta iota in Hrun. rewrite Hquiet in Hrun.
  eexists. split; [exact Hrun|].
  unfold notification_logs, proxy_log, proxy_call. by case_bool_decide.
Qed.

(** X20: for managed routers and a driver that does not fail, a run of
    notifications makes one driver call per notification, in arrival
    order, spawn for ["master"] and destroy for every other token; nothing
    is filtered out, so a repeated state is passed on to the driver
    again. *)
Theorem notifications_drive_the_proxy_in_order (notes : list (string * string))
    (w : World) :
  Forall (λ note, is_Some (router_info (self w) !! note.1)) notes →
  (∀ t e, raises t e = false) →
  let r := handle_all (request_headers <$> notes) w in
  r.1 = Returns tt
  ∧ self r.2 = self w
  ∧ primitives (emitted w r.2)
    = omap (λ note, (λ ri, proxy_call ri note.2) <$> router_info (self w) !! note.1)
        notes.
Proof.
  intros Hmanaged Hquiet. unfold handle_all.
  assert (Hrun : ∀ w0, self w0 = self w →
            ∃ es, for_each (request_headers <$> notes) handler_call w0
                  = (Returns tt, mkWorld (self w0) (objects w0) (trace w0 ++ es))
                  ∧ primitives es
                    = omap (λ note, (λ ri, proxy_call ri note.2)
                                      <$> router_info (self w) !! note.1) notes).
  { induction notes as [|note notes IH]; intros w0 Hself.
    - exists []. rewrite app_nil_r. split; [by destruct w0|reflexivity].
    - apply Forall_cons in Hmanaged as [[ri Hri] Hrest].
      rewrite fmap_cons. cbn [for_each omap list_omap]. rewrite Hri. cbn [fmap option_fmap option_map].
      destruct (handler_call_managed note ri w0) as (es1 & Hcall & Hp1);
        [by rewrite Hself|exact Hquiet|].
      unfold mbind, Py_bind. rewrite Hcall.
      destruct (IH Hrest (mkWorld (self w0) (objects w0) (trace w0 ++ es1)) Hself)
        as (es2 & -> & Hp2).
      exists (es1 ++ es2). cbn [self objects trace]. rewrite <- app_assoc.
      split; [reflexivity|]. by rewrite primitives_app, Hp1, Hp2. }
  destruct (Hrun w eq_refl) as (es & -> & Hp). cbn [fst snd self].
  split; [done|]. split; [done|]. by rewrite (emitted_app w _ es).
Qed.

End Notifications.

(** ** The extra properties on concrete inputs *)

Lemma destroy_snat_namespace_unplugs_sg_devices_witness :
  ∃ t, _destroy_snat_namespace (λ _, false) true
         ["sg-0a1b2c3d-4e"; "lo-x"; "qg-77"; "sg-ffff"] "snat-r1" [] = (Returns tt, t)
       ∧ unplugged t = ["sg-0a1b2c3d-4e"; "sg-ffff"]
       ∧ (delete_namespace "snat-r1" ∈ t ↔ true = true).
Proof.
  destruct (destroy_snat_namespace_unplugs_sg_devices (λ _, false) "snat-r1" true
              ["sg-0a1b2c3d-4e"; "lo-x"; "qg-77"; "sg-ffff"] (λ _, eq_refl))
    as (t & Hrun & Hu & Hdel & _).
  exists t. split; [exact Hrun|]. split; [exact Hu|exact Hdel].
Defined.

Lemma destroy_snat_namespace_unplug_failure_witness :
  ∃ t, _destroy_snat_namespace (fails_only (driver_unplug "sg-bad" "snat-r1" "sg-")) true
         (["sg-ok"; "tap0"] ++ "sg-bad" :: ["sg-later"]) "snat-r1" []
       = (Raises PrimitiveError, t)
       ∧ unplugged t = ["sg-ok"; "sg-bad"]
       ∧ delete_namespace "snat-r1" ∉ t.
Proof.
  apply (destroy_snat_namespace_unplug_failure
           (fails_only (driver_unplug "sg-bad" "snat-r1" "sg-")) "snat-r1" true
           ["sg-ok"; "tap0"] ["sg-later"] "sg-bad").
  - repeat constructor.
  - reflexivity.
  - vm_compute. reflexivity.
Defined.

Lemma fip_world_wf : table_wf fip_world.
Proof.
  intros k h Hk. unfold cache in Hk. cbn in Hk.
  apply lookup_singleton_Some in Hk as [<- <-].
  exists example_fip_ns. split; reflexivity.
Qed.

Lemma one_fip_state_wf : table_wf one_fip_state.1.
Proof.
  apply (@table_wf_added quiet example_fip "203.0.113.10/32" (fip_world, fip_router)).
  exact fip_world_wf.
Qed.

Lemma fip_table_stays_well_formed_witness :
  table_wf (@get_fip_ns quiet (PyString "other-net") fip_world).2
  ∧ table_wf (@floating_ip_added_dist quiet example_fip "203.0.113.10/32"
                (fip_world, fip_router)).2.1.
Proof.
  destruct (@fip_table_stays_well_formed quiet fip_world fip_router fip_world_wf)
    as (Hget & _ & Hadd & _).
  split; [apply Hget|apply Hadd].
Defined.

Lemma destroy_fip_namespace_evicts_before_destroying_witness :
  let r := @_destroy_fip_namespace faulty "fip-ext-net" fip_world in
  ∃ h, emitted fip_world r.2 = [fip_ns_destroy h]
       ∧ r.1 = Raises PrimitiveError
       ∧ cache r.2 = delete "ext-net" (cache fip_world).
Proof.
  destruct (@destroy_fip_namespace_evicts_before_destroying faulty "fip-ext-net"
              fip_world fip_world_wf) as (h & Hcalls & Hout & Hcache & _).
  exists h. split; [exact Hcalls|]. split; [exact Hout|exact Hcache].
Defined.

Lemma get_fip_ns_after_destroy_is_new_witness :
  let w1 := (@_destroy_fip_namespace quiet "fip-ext-net" fip_world).2 in
  (@get_fip_ns quiet (PyString "ext-net") w1).1 = Returns (length (objects w1))
  ∧ ∀ h, fip_ns_destroy h ∈ emitted fip_world w1 → h ≠ length (objects w1).
Proof.
  destruct (@get_fip_ns_after_destroy_is_new quiet "fip-ext-net" fip_world fip_world_wf)
    as (Hnew & _ & Hdiff).
  split; [exact Hnew|exact Hdiff].
Defined.

Lemma floating_ip_added_dist_installs_witness :
  let r := @floating_ip_added_dist quiet example_fip "203.0.113.10/32"
             (fip_world, fip_router) in
  ∃ rule_pr,
    rule_pr ∈ [32768; 32769; 32770]
    ∧ r.1 = Returns tt
    ∧ emitted fip_world r.2.1
      = [IpRule_add "qrouter-r1" "10.0.0.5" 16 rule_pr;
         route_add_route ("fip-" +:+ "ext-net") (PyStr.take 14 ("fpr-" +:+ "r1"))
           "203.0.113.10/32" "169.254.30.0";
         send_garp_for_proxyarp ("fip-" +:+ "ext-net") (PyStr.take 14 ("fg-" +:+ "gw-port"))
           "203.0.113.10"].
Proof.
  destruct (@floating_ip_added_dist_installs quiet example_fip "203.0.113.10/32"
              fip_world fip_router 0%nat example_fip_ns example_lease "gw-port")
    as (rule_pr & Hin & Hret & Hcalls & _).
  - reflexivity.
  - reflexivity.
  - discriminate.
  - reflexivity.
  - reflexivity.
  - intros t e. reflexivity.
  - exists rule_pr. split; [exact Hin|]. split; [exact Hret|exact Hcalls].
Defined.

Lemma floating_ip_added_dist_failure_keeps_entry_witness :
  let r := @floating_ip_added_dist faulty example_fip "203.0.113.10/32"
             (fip_world, fip_router) in
  ∃ rule_pr,
    head (emitted fip_world r.2.1) = Some (IpRule_add "qrouter-r1" "10.0.0.5" 16 rule_pr)
    ∧ floating_ips_dict r.2.2 = <[ "203.0.113.10" := rule_pr ]> ∅
    ∧ dist_fip_count r.2.2 = 0.
Proof.
  destruct (@floating_ip_added_dist_failure_keeps_entry faulty example_fip
              "203.0.113.10/32" fip_world fip_router 0%nat example_fip_ns PrimitiveError)
    as (rule_pr & _ & Hhead & Hdict & Hcount).
  - reflexivity.
  - reflexivity.
  - discriminate.
  - vm_compute. reflexivity.
  - exists rule_pr. split; [exact Hhead|]. split; [exact Hdict|exact Hcount].
Defined.


Lemma set_subnet_arp_info_seeds_neighbours_witness :
  let r := @_set_subnet_arp_info faulty example_owners example_rpc arp_router
             (Some {["id" := "subnet-1"]}) empty_world in
  r.1 = Returns tt
  ∧ neighbour_calls (emitted empty_world r.2)
    = @seed_call faulty arp_router example_sn_port
      <$> List.filter valid_ip (arp_pairs example_owners example_subnet_ports).
Proof.
  destruct (@set_subnet_arp_info_seeds_neighbours faulty example_owners example_rpc
              arp_router {["id" := "subnet-1"]} "subnet-1" example_subnet_ports
              example_sn_port empty_world)
    as (Hret & Hcalls & _).
  - reflexivity.
  - reflexivity.
  - reflexivity.
  - vm_compute. reflexivity.
  - split; [exact Hret|exact Hcalls].
Defined.

(** The three reported ports give two seeded entries: the router's own port
    and the text that is no IP are left out. *)
Example seeded_neighbours :
  neighbour_calls
    (emitted empty_world
       (@_set_subnet_arp_info quiet example_owners example_rpc arp_router
          (Some {["id" := "subnet-1"]}) empty_world).2)
  = [neigh_add "qrouter-r1" "qr-p1" 4 "10.0.0.7" "fa:16:3e:00:00:07";
     neigh_add "qrouter-r1" "qr-p1" 4 "10.0.0.8" "fa:16:3e:00:00:08"].
Proof. vm_compute. reflexivity. Qed.

Lemma handler_call_outcome_witness :
  let r := @handler_call quiet (request_headers ("r2", "master")) managed_world in
  r.1 = Raises KeyError
  ∧ emitted managed_world r.2 = notification_logs "r2" "master".
Proof.
  destruct (@handler_call_outcome quiet (request_headers ("r2", "master")) "r2" "master"
              managed_world eq_refl eq_refl) as (_ & _ & Hcase).
  exact Hcase.
Defined.

Lemma handler_call_missing_header_witness :
  @handler_call quiet {["X-Neutron-Router-Id" := "r1"]} managed_world
  = (Raises KeyError, managed_world).
Proof.
  apply (@handler_call_missing_header quiet {["X-Neutron-Router-Id" := "r1"]}
           managed_world).
  right. reflexivity.
Defined.

Lemma notifications_drive_the_proxy_in_order_witness :
  let r := @handle_all quiet
             (request_headers <$> [("r1", "master"); ("r1", "master"); ("r1", "backup")])
             managed_world in
  r.1 = Returns tt
  ∧ self r.2 = self managed_world
  ∧ primitives (emitted managed_world r.2)
    = omap (λ note, (λ ri, @proxy_call quiet ri note.2)
                      <$> router_info (self managed_world) !! note.1)
        [("r1", "master"); ("r1", "master"); ("r1", "backup")].
Proof.
  apply (@notifications_drive_the_proxy_in_order quiet
           [("r1", "master"); ("r1", "master"); ("r1", "backup")] managed_world).
  - repeat constructor; eexists; reflexivity.
  - intros t e. reflexivity.
Defined.

(** Two [master] notifications in a row reach the driver as two spawns. *)
Example repeated_master_spawns_twice :
  primitives
    (emitted managed_world
       (@handle_all quiet
          (request_headers <$> [("r1", "master"); ("r1", "master"); ("r1", "backup")])
          managed_world).2)
  = [spawn_monitored_metadata_proxy "qrouter-r1" 9697 "r1";
     spawn_monitored_metadata_proxy "qrouter-r1" 9697 "r1";
     destroy_monitored_metadata_proxy "r1" "qrouter-r1"].
Proof. vm_compute. reflexivity. Qed.
